(** * clean_to_silver: the raw-to-silver taxi pipeline

    A shallow embedding of [src/clean_to_silver.py].  The script reads a CSV
    into a pandas [DataFrame] and threads it through five stages:
    [normalize_columns], [coerce_types], [clean_rows],
    [recompute_duration_fields] and [drop_duplicates_by_key].

    Modelling choices, fixed once for the whole file:
    - a [DataFrame] is a header (column labels with the dtype pandas tracks
      for each column) and a list of rows; a row is the list of its cells in
      header order, and a cell that a short row does not supply reads as the
      missing marker;
    - a number is a binary64 float ([PrimFloat.float]) and every operation
      on numbers is the machine's: division, comparison and numpy's [round]
      behave as on [float64], with its rounding, underflow and overflow.
      The missing marker [NaN] is the float nan.  An [int64] value is
      represented by the float64 it converts to, which is exact below 2^53;
    - the dtype of a column of text is [DObject] where [read_csv] leaves
      Python objects (pandas up to 2.x) and [DStr] where it infers the
      string dtype (pandas 3.x); the repository does not pin pandas;
    - a Python exception is the result [None];
    - column labels are ASCII strings;
    - [d[c]] reads the first column labelled [c].  [coerce_types] raises when
      a label it reads is carried by two columns, so that in the pipeline
      every later stage sees each label of the registry once at most. *)

From Stdlib Require Import PrimFloat.
From Stdlib Require SpecFloat FloatOps.
From Stdlib Require Import List String Ascii Bool Arith ZArith Lia.
Import ListNotations.
Local Open Scope string_scope.
Local Open Scope nat_scope.

(** Decimal constants stand for the nearest binary64 value, as they do in
    Python. *)
Set Warnings "-inexact-float".

(** ** Exceptions *)

Module Exc.
Definition bind {A B : Type} (m : option A) (f : A -> option B) : option B :=
  match m with
  | Some a => f a
  | None => None
  end.

(** Run [f] over a list left to right, stopping at the first exception. *)
Fixpoint mapM {A B : Type} (f : A -> option B) (l : list A) : option (list B) :=
  match l with
  | [] => Some []
  | a :: t =>
      match f a with
      | None => None
      | Some b =>
          match mapM f t with
          | None => None
          | Some bs => Some (b :: bs)
          end
      end
  end.

(** A Python [for] loop whose body may raise. *)
Fixpoint foldM {A S : Type} (f : A -> S -> option S) (l : list A) (s : S) : option S :=
  match l with
  | [] => Some s
  | a :: t => bind (f a s) (foldM f t)
  end.
End Exc.

Notation "x <- m ;; k" := (Exc.bind m (fun x => k))
  (at level 61, m at next level, right associativity).

(** ** Column labels *)

(** [str.isspace] on the ASCII range. *)
Definition is_space (c : ascii) : bool :=
  let n := nat_of_ascii c in
  ((9 <=? n) && (n <=? 13)) || ((28 <=? n) && (n <=? 32)).

Definition is_upper (c : ascii) : bool :=
  let n := nat_of_ascii c in (65 <=? n) && (n <=? 90).

Definition lower_char (c : ascii) : ascii :=
  if is_upper c then ascii_of_nat (nat_of_ascii c + 32) else c.

Fixpoint map_chars (f : ascii -> ascii) (s : string) : string :=
  match s with
  | EmptyString => EmptyString
  | String c t => String (f c) (map_chars f t)
  end.

Fixpoint all_chars (p : ascii -> bool) (s : string) : bool :=
  match s with
  | EmptyString => true
  | String c t => p c && all_chars p t
  end.

Fixpoint lstrip (s : string) : string :=
  match s with
  | EmptyString => EmptyString
  | String c t => if is_space c then lstrip t else s
  end.

Fixpoint rstrip (s : string) : string :=
  match s with
  | EmptyString => EmptyString
  | String c t =>
      match rstrip t with
      | EmptyString => if is_space c then EmptyString else String c EmptyString
      | t' => String c t'
      end
  end.

(** [str.strip()] *)
Definition strip (s : string) : string := rstrip (lstrip s).

(** [str.lower()] *)
Definition lower (s : string) : string := map_chars lower_char s.

(** [str.replace(a, b)] for one-character [a] and [b]. *)
Definition swap (a b c : ascii) : ascii := if Ascii.eqb c a then b else c.

Definition replace (a b : ascii) (s : string) : string := map_chars (swap a b) s.

(** One label through [.str.strip().str.lower().str.replace(" ", "_").str.replace("-", "_")]. *)
Definition normalize_name (s : string) : string :=
  replace "-"%char "_"%char (replace " "%char "_"%char (lower (strip s))).

(** The canonical form the specification describes: trimmed, lowercase, free
    of spaces and hyphens.  Stated on the characters, not through
    [normalize_name]. *)
Definition starts_clean (s : string) : bool :=
  match s with
  | EmptyString => true
  | String c _ => negb (is_space c)
  end.

Fixpoint ends_clean (s : string) : bool :=
  match s with
  | EmptyString => true
  | String c EmptyString => negb (is_space c)
  | String _ t => ends_clean t
  end.

Definition canonical (s : string) : bool :=
  starts_clean s && ends_clean s
  && all_chars (fun c => negb (is_upper c)) s
  && all_chars (fun c => negb (Ascii.eqb c " "%char)) s
  && all_chars (fun c => negb (Ascii.eqb c "-"%char)) s.

(** ** Tables *)

(** The representation pandas keeps for a column.  [DNumeric] stands for
    [int64] and [float64]; a column of text is [DObject] when [read_csv]
    leaves Python objects in it and [DStr] when it gives it the string
    dtype, for which [dtype == object] is false. *)
Inductive dtype : Type := DNumeric | DBool | DObject | DStr.

Inductive cell : Type :=
| Num (q : float)
| Bool (b : bool)
| Str (s : string).

(** The missing marker: the float nan, in a column of any dtype. *)
Definition NaN : cell := Num nan.

(** [pd.isna] on one cell. *)
Definition is_missing (c : cell) : bool :=
  match c with
  | Num q => is_nan q
  | _ => false
  end.

Definition row : Type := list cell.

Record DataFrame : Type := mkDF {
  columns : list (string * dtype);
  rows : list row
}.

Definition names (df : DataFrame) : list string := map fst (columns df).

(** Position of the first column labelled [c]. *)
Fixpoint index_of (c : string) (l : list string) : option nat :=
  match l with
  | [] => None
  | x :: t =>
      if String.eqb c x then Some O
      else match index_of c t with
           | Some j => Some (S j)
           | None => None
           end
  end.

Definition col_index (c : string) (df : DataFrame) : option nat :=
  index_of c (names df).

(** [c in df.columns] *)
Definition has_col (c : string) (df : DataFrame) : bool :=
  match col_index c df with
  | Some _ => true
  | None => false
  end.

Definition cell_at (j : nat) (r : row) : cell := nth j r NaN.

Fixpoint set_cell (j : nat) (v : cell) (r : row) : row :=
  match j, r with
  | O, [] => [v]
  | O, _ :: t => v :: t
  | S j', [] => NaN :: set_cell j' v []
  | S j', x :: t => x :: set_cell j' v t
  end.

Definition dtype_at (j : nat) (df : DataFrame) : dtype :=
  snd (nth j (columns df) (EmptyString, DObject)).

Fixpoint set_dtype (j : nat) (t : dtype) (l : list (string * dtype)) : list (string * dtype) :=
  match j, l with
  | _, [] => []
  | O, (c, _) :: rest => (c, t) :: rest
  | S j', x :: rest => x :: set_dtype j' t rest
  end.

(** [d[c] = d[c].<elementwise f>] on an existing column at position [j]. *)
Definition map_column (j : nat) (t : dtype) (f : cell -> cell) (df : DataFrame) : DataFrame :=
  mkDF (set_dtype j t (columns df))
       (map (fun r => set_cell j (f (cell_at j r)) r) (rows df)).

(** ** The column registry *)

Definition NUM_COLS : list string :=
  [ "trip_duration_sec"; "trip_duration_min"; "trip_duration_hr";
    "distance_traveled_km"; "kph";
    "wait_time_cost"; "distance_cost"; "fare_w_flag";
    "tip"; "miscellaneous_fees"; "total_fare_new";
    "num_of_passengers" ].

Definition MONEY_COLS : list string :=
  [ "wait_time_cost"; "distance_cost"; "fare_w_flag"; "tip";
    "miscellaneous_fees"; "total_fare_new" ].

Definition COMPOSITE_KEY : list string :=
  [ "trip_duration_sec"; "distance_traveled_km"; "total_fare_new";
    "num_of_passengers"; "tip"; "surge_applied" ].

(** ** normalize_columns *)

Definition normalize_columns (df : DataFrame) : DataFrame :=
  mkDF (map (fun cd => (normalize_name (fst cd), snd cd)) (columns df)) (rows df).

(** ** Numbers *)

(** [float(b)] *)
Definition float_of_bool (b : bool) : float := if b then 1%float else 0%float.

(** numpy's [rint]: the nearest integer, ties to the even one, the sign
    kept.  Below 2^52 in magnitude adding and subtracting 2^52 rounds to an
    integer in the machine's rounding mode; from 2^52 on every float is an
    integer; nan and the infinities come back as they are. *)
Definition rint (x : float) : float :=
  if (abs x <? 4503599627370496)%float then
    let r := ((abs x + 4503599627370496) - 4503599627370496)%float in
    if get_sign x then (- r)%float else r
  else x.

(** [x.round(6)], as numpy computes it: scale by 10^6, [rint], scale
    back. *)
Definition round6 (x : float) : float := (rint (x * 1000000) / 1000000)%float.

(** Equality of two numbers as [duplicated] hashes them: [x == y], or both
    nan.  It is read on the IEEE 754 values the floats denote, where [==]
    is [SFeqb]. *)
Definition same_value (a b : SpecFloat.spec_float) : bool :=
  match a, b with
  | SpecFloat.S754_nan, SpecFloat.S754_nan => true
  | _, _ => SpecFloat.SFeqb a b
  end.

Definition float_same (x y : float) : bool :=
  same_value (FloatOps.Prim2SF x) (FloatOps.Prim2SF y).

(** ** coerce_types *)

(** How many columns carry the label [c]. *)
Definition count_label (c : string) (l : list string) : nat :=
  List.length (filter (String.eqb c) l).

(** [d[c]] is a [Series] only when one column carries the label; with a
    repeated label pandas hands back a sub-frame, on which [pd.to_numeric]
    and [.dtype] raise. *)
Definition series_index (c : string) (d : DataFrame) : option nat :=
  if count_label c (names d) =? 1 then col_index c d else None.

(** [s.fillna(v)] *)
Definition fillna (v : cell) (c : cell) : cell :=
  if is_missing c then v else c.

(** [.map({"true": True, "false": False, "1": True, "0": False})]: a key the
    dictionary lacks maps to NaN. *)
Definition surge_map (s : string) : cell :=
  if String.eqb s "true" then Bool true
  else if String.eqb s "false" then Bool false
  else if String.eqb s "1" then Bool true
  else if String.eqb s "0" then Bool false
  else NaN.

(** [.astype(bool)]: Python truthiness, [x != 0] on a float, so that nan
    is true, and non-emptiness on text. *)
Definition astype_bool (c : cell) : cell :=
  match c with
  | Num q => Bool (negb (q =? 0)%float)
  | Bool b => Bool b
  | Str s => Bool (negb (String.eqb s ""))
  end.

Section Coercion.

(** [pd.to_numeric]'s reading of one string, [None] when it is not the
    text of a number. *)
Variable parse_number : string -> option float.

(** [str(x)] of a number. *)
Variable str_of_number : float -> string.

(** One cell through [pd.to_numeric(..., errors="coerce")].  A column that
    is already numeric or boolean is returned as it is; in a column of text
    the text is parsed, and what does not parse becomes NaN. *)
Definition to_numeric_cell (t : dtype) (c : cell) : cell :=
  match c with
  | Num q => Num q
  | Bool b =>
      match t with
      | DBool => Bool b
      | _ => Num (float_of_bool b)
      end
  | Str s =>
      match parse_number s with
      | Some q => Num q
      | None => NaN
      end
  end.

Definition to_numeric_dtype (t : dtype) : dtype :=
  match t with
  | DBool => DBool
  | _ => DNumeric
  end.

(** The body of the loop over [NUM_COLS]. *)
Definition coerce_numeric (c : string) (d : DataFrame) : option DataFrame :=
  if has_col c d then
    j <- series_index c d ;;
    Some (map_column j (to_numeric_dtype (dtype_at j d))
                     (to_numeric_cell (dtype_at j d)) d)
  else Some d.

(** [.astype(str)] *)
Definition astype_str (c : cell) : string :=
  match c with
  | Str s => s
  | Bool true => "True"
  | Bool false => "False"
  | Num q => if is_nan q then "nan" else str_of_number q
  end.

(** The textual branch, one cell. *)
Definition surge_text (c : cell) : cell :=
  fillna (Bool false) (surge_map (lower (strip (astype_str c)))).

(** The coercion of [surge_applied].  The textual branch is taken when the
    dtype is [object], and for no other dtype: a column of dtype [str] is
    cast by truthiness.  Both branches leave booleans in the column; no
    later stage reads its dtype. *)
Definition coerce_surge (d : DataFrame) : option DataFrame :=
  if has_col "surge_applied" d then
    j <- series_index "surge_applied" d ;;
    match dtype_at j d with
    | DObject => Some (map_column j DBool surge_text d)
    | _ => Some (map_column j DBool astype_bool d)
    end
  else Some d.

Definition coerce_types (df : DataFrame) : option DataFrame :=
  d <- Exc.foldM coerce_numeric NUM_COLS df ;;
  coerce_surge d.

End Coercion.

(** ** clean_rows *)

(** The numeric value a comparison or a division sees in a cell. *)
Definition num_value (c : cell) : option float :=
  match c with
  | Num q => Some q
  | Bool b => Some (float_of_bool b)
  | Str _ => None
  end.

(** An elementwise comparison [series <op> k]: the machine's comparison,
    which is false on nan, and a [TypeError] on text. *)
Definition compare_cell (op : float -> bool) (c : cell) : option bool :=
  match c with
  | Num q => Some (op q)
  | Bool b => Some (op (float_of_bool b))
  | Str _ => None
  end.

(** [s.fillna(0) > 0] *)
Definition is_positive (c : cell) : option bool :=
  compare_cell (fun q => (0 <? q)%float) (fillna (Num 0) c).

(** [s.fillna(0) >= 0] *)
Definition is_nonneg (c : cell) : option bool :=
  compare_cell (fun q => (0 <=? q)%float) (fillna (Num 0) c).

(** [s.fillna(0) >= 1] *)
Definition at_least_one (c : cell) : option bool :=
  compare_cell (fun q => (1 <=? q)%float) (fillna (Num 0) c).

(** [(s.fillna(0) > 0) & (s <= 160)] *)
Definition sane_speed (c : cell) : option bool :=
  a <- compare_cell (fun q => (0 <? q)%float) (fillna (Num 0) c) ;;
  b <- compare_cell (fun q => (q <=? 160)%float) c ;;
  Some (a && b).

(** Boolean indexing [l[mask]]. *)
Fixpoint select {A : Type} (mask : list bool) (l : list A) : list A :=
  match mask, l with
  | b :: m, x :: t => if b then x :: select m t else select m t
  | _, _ => []
  end.

(** [if c in df: df = df[<rule on df[c]>]] *)
Definition apply_rule (c : string) (rule : cell -> option bool) (df : DataFrame)
  : option DataFrame :=
  match col_index c df with
  | None => Some df
  | Some j =>
      mask <- Exc.mapM (fun r => rule (cell_at j r)) (rows df) ;;
      Some (mkDF (columns df) (select mask (rows df)))
  end.

Definition clean_rows (d : DataFrame) : option DataFrame :=
  df <- apply_rule "trip_duration_sec" is_positive d ;;
  df <- apply_rule "trip_duration_min" is_positive df ;;
  df <- apply_rule "distance_traveled_km" is_positive df ;;
  df <- Exc.foldM (fun m => apply_rule m is_nonneg) MONEY_COLS df ;;
  df <- apply_rule "num_of_passengers" at_least_one df ;;
  apply_rule "kph" sane_speed df.

(** ** recompute_duration_fields *)

(** [s / k] on one cell, in binary64: the quotient is rounded to the nearest
    float, nan stays nan, text raises. *)
Definition div_cell (k : float) (c : cell) : option cell :=
  match c with
  | Num q => Some (Num (q / k))
  | Bool b => Some (Num (float_of_bool b / k))
  | Str _ => None
  end.

(** [s.round(6)] on the float cells a division leaves. *)
Definition round_cell (c : cell) : cell :=
  match c with
  | Num q => Num (round6 q)
  | _ => c
  end.

(** [d[c] = <values>]: an existing column is overwritten in place, a new one
    is appended on the right.  [value] computes the new cell of a row from
    the row and may raise. *)
Definition assign_column (c : string) (value : row -> option cell) (d : DataFrame)
  : option DataFrame :=
  match col_index c d with
  | Some j =>
      rs <- Exc.mapM (fun r => v <- value r ;; Some (set_cell j v r)) (rows d) ;;
      Some (mkDF (set_dtype j DNumeric (columns d)) rs)
  | None =>
      let j := List.length (columns d) in
      rs <- Exc.mapM (fun r => v <- value r ;; Some (set_cell j v r)) (rows d) ;;
      Some (mkDF (columns d ++ [(c, DNumeric)]) rs)
  end.

Definition minutes_from_seconds (jsec : nat) (r : row) : option cell :=
  div_cell 60 (cell_at jsec r).

Definition hours_from_minutes (jmin : nat) (r : row) : option cell :=
  v <- div_cell 60 (cell_at jmin r) ;; Some (round_cell v).

Definition hours_from_seconds (jsec : nat) (r : row) : option cell :=
  v <- div_cell 3600 (cell_at jsec r) ;; Some (round_cell v).

Definition recompute_duration_fields (df : DataFrame) : option DataFrame :=
  d <- match col_index "trip_duration_min" df, col_index "trip_duration_sec" df with
       | None, Some jsec => assign_column "trip_duration_min" (minutes_from_seconds jsec) df
       | _, _ => Some df
       end ;;
  match col_index "trip_duration_min" d with
  | Some jmin => assign_column "trip_duration_hr" (hours_from_minutes jmin) d
  | None =>
      match col_index "trip_duration_sec" d with
      | Some jsec => assign_column "trip_duration_hr" (hours_from_seconds jsec) d
      | None => Some d
      end
  end.

(** ** drop_duplicates_by_key *)

(** Equality of two cells as [duplicated] sees it: missing equals missing,
    numbers are compared by value ([True == 1] in Python). *)
Definition cell_eqb (a b : cell) : bool :=
  match a, b with
  | Str s, Str t => String.eqb s t
  | Str _, _ | _, Str _ => false
  | _, _ =>
      match num_value a, num_value b with
      | Some x, Some y => float_same x y
      | _, _ => false
      end
  end.

Fixpoint key_eqb (k1 k2 : list cell) : bool :=
  match k1, k2 with
  | [], [] => true
  | a :: t1, b :: t2 => cell_eqb a b && key_eqb t1 t2
  | _, _ => false
  end.

(** [[c for c in COMPOSITE_KEY if c in df.columns]] *)
Definition key_columns (df : DataFrame) : list string :=
  filter (fun c => has_col c df) COMPOSITE_KEY.

(** The cells of a row under the key columns. *)
Definition project (df : DataFrame) (key : list string) (r : row) : list cell :=
  map (fun c => match col_index c df with
                | Some j => cell_at j r
                | None => NaN
                end) key.

(** [df.duplicated(subset=key)]: a row is flagged when an earlier row has the
    same projection; [seen] holds the projections of the rows before. *)
Fixpoint duplicated_from (seen : list (list cell)) (ks : list (list cell)) : list bool :=
  match ks with
  | [] => []
  | k :: t => existsb (key_eqb k) seen :: duplicated_from (k :: seen) t
  end.

Definition duplicated (df : DataFrame) (key : list string) : list bool :=
  duplicated_from [] (map (project df key) (rows df)).

(** [mask.sum()] *)
Definition count_true (mask : list bool) : nat :=
  List.length (filter (fun b => b) mask).

(** [df.drop_duplicates(subset=key)] *)
Definition drop_duplicates (df : DataFrame) (key : list string) : DataFrame :=
  mkDF (columns df) (select (map negb (duplicated df key)) (rows df)).

Definition drop_duplicates_by_key (df : DataFrame) : DataFrame * nat * list string :=
  let key := key_columns df in
  let dupes := match key with
               | [] => 0
               | _ => count_true (duplicated df key)
               end in
  let out := match key with
             | [] => df
             | _ => drop_duplicates df key
             end in
  (out, dupes, key).

(** ** The pipeline of [main] *)

(** What [main] computes between [read_csv] and [to_csv], with the figures
    of its summary. *)
Record Summary : Type := mkSummary {
  silver : DataFrame;
  n_in : nat;
  after_cleaning : nat;
  dup_count : nat;
  key_used : list string;
  raw_cols : list string
}.

Section Main.

Variable parse_number : string -> option float.
Variable str_of_number : float -> string.

(** The frame handed to the de-duplication. *)
Definition staged (raw : DataFrame) : option DataFrame :=
  df <- Some (normalize_columns raw) ;;
  df <- coerce_types parse_number str_of_number df ;;
  df <- clean_rows df ;;
  recompute_duration_fields df.

Definition main (raw : DataFrame) : option Summary :=
  df <- staged raw ;;
  let '(out, dupes, key) := drop_duplicates_by_key df in
  Some (mkSummary out (List.length (rows raw)) (List.length (rows out)) dupes key (names raw)).

End Main.

(** ** Sample data *)

(** A reader of plain decimal integers, enough to run the pipeline on the
    samples below; [pd.to_numeric] reads more than this. *)
Fixpoint float_of_nat (n : nat) : float :=
  match n with
  | O => 0%float
  | S m => (float_of_nat m + 1)%float
  end.

Fixpoint digits_value (acc : float) (s : string) : option float :=
  match s with
  | EmptyString => Some acc
  | String c t =>
      let n := nat_of_ascii c in
      if (48 <=? n) && (n <=? 57)
      then digits_value (10 * acc + float_of_nat (n - 48))%float t
      else None
  end.

Definition read_integer (s : string) : option float :=
  match strip s with
  | EmptyString => None
  | String "-" EmptyString => None
  | String "-" t => option_map opp (digits_value 0 t)
  | t => digits_value 0 t
  end.

(** The samples hold no number in a textual column, so the text of a number
    is never asked for. *)
Definition no_number_text (q : float) : string := "".

(** Six trips as [read_csv] would hand them over: a valid one, one of zero
    duration, one with a negative fare, a repetition of the first, one with
    an unreadable fare and an unrecognized surge flag, and one too fast. *)
Definition sample_raw : DataFrame :=
  mkDF [ ("Trip Duration Sec", DNumeric); ("distance-traveled-km", DNumeric);
         ("total_fare_new", DObject); (" num_of_passengers", DNumeric);
         ("tip", DNumeric); ("kph", DNumeric); ("surge_applied", DObject);
         ("driver", DObject) ]
       [ [Num 120; Num 1; Str "5"; Num 1; Num 0; Num 30; Str "TRUE"; Str "ann"];
         [Num 0; Num 1; Str "5"; Num 1; Num 0; Num 30; Str "true"; Str "bob"];
         [Num 120; Num 1; Str "-2"; Num 1; Num 0; Num 30; Str "0"; Str "cyd"];
         [Num 120; Num 1; Str " 5"; Num 1; Num 0; Num 44; Str " True "; Str "dan"];
         [Num 300; Num 2.5; Str "n/a"; Num 2; NaN; Num 30; Str "maybe"; Str "eve"];
         [Num 60; Num 9; Str "7"; Num 1; Num 1; Num 540; Str "1"; Str "fay"] ].

(** A frame that already carries the minutes, some of them very short. *)
Definition sample_minutes : DataFrame :=
  mkDF [ ("trip_duration_min", DNumeric); ("trip_duration_hr", DNumeric) ]
       [ [Num 90; Num 7]; [Num 0.00002; Num 7] ].

(** A frame with hours only. *)
Definition sample_hours : DataFrame :=
  mkDF [ ("trip_duration_hr", DNumeric) ] [ [Num (-5)]; [Num 0]; [NaN] ].

(** A frame without any column of the registry. *)
Definition sample_plain : DataFrame :=
  mkDF [ ("driver", DObject) ] [ [Str "ann"]; [Str "ann"] ].

(** A frame whose surge flag [read_csv] typed as a float column. *)
Definition sample_flags : DataFrame :=
  mkDF [ ("surge_applied", DNumeric); ("tip", DObject) ]
       [ [Num 1; Str "2"]; [Num 0; Str "x"]; [NaN; NaN] ].

(** The surge flags of a CSV as pandas 3 reads them: text, in a column of
    the string dtype. *)
Definition sample_surge_str : DataFrame :=
  mkDF [ ("surge_applied", DStr); ("tip", DNumeric) ]
       [ [Str "true"; Num 1]; [Str "false"; Num 1]; [Str "0"; Num 2];
         [Str "maybe"; Num 3] ].

(** The same flags as pandas 2 reads them. *)
Definition sample_surge_object : DataFrame :=
  mkDF [ ("surge_applied", DObject); ("tip", DNumeric) ]
       (rows sample_surge_str).

(** A trip of the shortest positive duration a float can hold, with no
    minutes column. *)
Definition sample_instant : DataFrame :=
  mkDF [ ("trip_duration_sec", DNumeric) ] [ [Num 0x1p-1074] ].

(** A trip of 10.125 seconds, which are 0.0028125 hours: halfway between
    two millionths. *)
Definition sample_tie : DataFrame :=
  mkDF [ ("trip_duration_sec", DNumeric) ] [ [Num 10.125] ].

Definition empty_frame : DataFrame := mkDF [] [].

(** The sample after each stage. *)
Definition sample_coerced : DataFrame :=
  Eval vm_compute in
    match coerce_types read_integer no_number_text (normalize_columns sample_raw) with
    | Some d => d
    | None => empty_frame
    end.

Definition sample_cleaned : DataFrame :=
  Eval vm_compute in
    match clean_rows sample_coerced with
    | Some d => d
    | None => empty_frame
    end.

Definition sample_staged : DataFrame :=
  Eval vm_compute in
    match recompute_duration_fields sample_cleaned with
    | Some d => d
    | None => empty_frame
    end.

Definition sample_summary : Summary :=
  Eval vm_compute in
    match main read_integer no_number_text sample_raw with
    | Some s => s
    | None => mkSummary empty_frame 0 0 0 [] []
    end.

(** The first trip as it leaves the pipeline. *)
Definition sample_trip : row :=
  Eval vm_compute in nth 0 (rows (silver sample_summary)) [].

(** ** Vocabulary of the statements *)

(** Whether position [j] is that of a column labelled by one of [cs]. *)
Definition targets (cs : list string) (df : DataFrame) (j : nat) : bool :=
  existsb (fun c => match col_index c df with
                    | Some k => k =? j
                    | None => false
                    end) cs.

(** A cell that is a number or the missing marker.  A boolean counts as a
    number, as it does in Python and among the numeric dtypes of pandas. *)
Definition is_numeric (c : cell) : bool :=
  match c with
  | Str _ => false
  | _ => true
  end.

(** The label [c], when present, labels exactly one column. *)
Definition label_ok (c : string) (d : DataFrame) : bool :=
  negb (has_col c d) || (count_label c (names d) =? 1).

(** Every present label of [cs] labels exactly one column. *)
Definition labels_unique (cs : list string) (df : DataFrame) : bool :=
  forallb (fun c => label_ok c df) cs.

(** State of the frame [d] once the labels [done] have been through the loop
    of [coerce_types] called on [df]: the header still carries the same
    labels, the columns not yet reached keep their dtype, and every row holds
    the coerced cells under [done] and its own cells elsewhere. *)
Definition coerced_so_far (parse_number : string -> option float) (df : DataFrame)
    (done : list string) (d : DataFrame) : Prop :=
  names d = names df
  /\ (forall j, targets done df j = false -> dtype_at j d = dtype_at j df)
  /\ Forall2 (fun r r' => forall j,
                cell_at j r' =
                  if targets done df j
                  then to_numeric_cell parse_number (dtype_at j df) (cell_at j r)
                  else cell_at j r)
             (rows df) (rows d).

(** What [coerce_types], called on [df], leaves at position [j] of a row
    that held [x] there. *)
Definition coerced_cell (parse_number : string -> option float) (str_of_number : float -> string)
    (df : DataFrame) (j : nat) (x : cell) : cell :=
  if targets NUM_COLS df j then to_numeric_cell parse_number (dtype_at j df) x
  else if targets ["surge_applied"] df j then
    match dtype_at j df with
    | DObject => surge_text str_of_number x
    | _ => astype_bool x
    end
  else x.

(** The labels [coerce_types] reads as a [Series]. *)
Definition COERCED : list string := NUM_COLS ++ ["surge_applied"].

(** The rules of [clean_rows], each with the label it reads, in the order
    the function applies them. *)
Definition validity_rules : list (string * (cell -> option bool)) :=
  [ ("trip_duration_sec", is_positive);
    ("trip_duration_min", is_positive);
    ("distance_traveled_km", is_positive) ]
  ++ map (fun m => (m, is_nonneg)) MONEY_COLS
  ++ [ ("num_of_passengers", at_least_one);
       ("kph", sane_speed) ].

(** The row [r] of [df] is kept by the rule: the rule's column is absent, or
    the rule holds of the cell there. *)
Definition rule_ok (df : DataFrame) (r : row) (cp : string * (cell -> option bool)) : bool :=
  match col_index (fst cp) df with
  | None => true
  | Some j =>
      match snd cp (cell_at j r) with
      | Some true => true
      | _ => false
      end
  end.

Definition row_ok (df : DataFrame) (r : row) : bool :=
  forallb (rule_ok df r) validity_rules.

(** The frame without the columns labelled [c] (what [df.drop(columns=c)]
    would give).  The script never removes a column; the operation serves
    to compare [clean_rows] on a frame with and without one. *)
Fixpoint drop_cells (c : string) (hdr : list string) (r : row) : row :=
  match hdr with
  | [] => []
  | x :: hs =>
      if String.eqb c x then drop_cells c hs (tl r)
      else cell_at 0 r :: drop_cells c hs (tl r)
  end.

Definition drop_column (c : string) (df : DataFrame) : DataFrame :=
  mkDF (filter (fun cd => negb (String.eqb c (fst cd))) (columns df))
       (map (drop_cells c (names df)) (rows df)).

(** No text is left under the columns labelled by [cs]. *)
Definition numeric_under (cs : list string) (df : DataFrame) : Prop :=
  forall r c j, In r (rows df) -> In c cs -> col_index c df = Some j ->
    is_numeric (cell_at j r) = true.

(** The rows of [l] that [drop_duplicates] keeps when the projections in
    [seen] came before. *)
Definition kept (proj : row -> list cell) (seen : list (list cell)) (l : list row)
  : list row :=
  select (map negb (duplicated_from seen (map proj l))) l.

(** How a row [r'] of the frame [d'] returned by [recompute_duration_fields]
    relates to the row [r] of the frame [d] it was computed from: the cells
    under every label other than the minutes and the hours are those of [r],
    at the same positions; so are the minutes when [d] had them, and
    otherwise they are the seconds over 60; the hours are the minutes over
    60, rounded. *)
Definition recomputed (d d' : DataFrame) (r r' : row) : Prop :=
  (forall c k, c <> "trip_duration_min" -> c <> "trip_duration_hr" ->
     col_index c d = Some k -> cell_at k r' = cell_at k r)
  /\ (forall jm, col_index "trip_duration_min" d = Some jm ->
        cell_at jm r' = cell_at jm r)
  /\ (forall jm, col_index "trip_duration_min" d = None ->
        col_index "trip_duration_min" d' = Some jm ->
        exists js, col_index "trip_duration_sec" d = Some js
                   /\ div_cell 60 (cell_at js r) = Some (cell_at jm r'))
  /\ (forall jm, col_index "trip_duration_min" d' = Some jm ->
        exists jh v, col_index "trip_duration_hr" d' = Some jh
                     /\ div_cell 60 (cell_at jm r') = Some v
                     /\ cell_at jh r' = round_cell v).

(** The columns labelled by [done] have their coerced dtype in [d], and
    every row of [d] reaches them. *)
Definition shaped (df : DataFrame) (done : list string) (d : DataFrame) : Prop :=
  forall c j, In c done -> col_index c df = Some j ->
    dtype_at j d = to_numeric_dtype (dtype_at j df)
    /\ forall r, In r (rows d) -> j < List.length r.

(** * Properties *)

(** ** Column labels *)

Section Labels.

Lemma map_chars_id (f : ascii -> ascii) (s : string) :
  all_chars (fun c => Ascii.eqb (f c) c) s = true -> map_chars f s = s.
Proof.
  induction s as [|c t IH]; simpl; intros H.
  - reflexivity.
  - apply andb_true_iff in H as [Hc Ht].
    apply Ascii.eqb_eq in Hc. rewrite Hc, (IH Ht). reflexivity.
Qed.

Lemma all_chars_impl (p q : ascii -> bool) (s : string) :
  (forall c, p c = true -> q c = true) ->
  all_chars p s = true -> all_chars q s = true.
Proof.
  intros Hpq. induction s as [|c t IH]; simpl; intros H.
  - reflexivity.
  - apply andb_true_iff in H as [Hc Ht].
    rewrite (Hpq _ Hc), (IH Ht). reflexivity.
Qed.

Lemma all_chars_map (p : ascii -> bool) (f : ascii -> ascii) (s : string) :
  all_chars p (map_chars f s) = all_chars (fun c => p (f c)) s.
Proof.
  induction s as [|c t IH]; simpl; [reflexivity | now rewrite IH].
Qed.

Lemma all_chars_true (p : ascii -> bool) (s : string) :
  (forall c, p c = true) -> all_chars p s = true.
Proof.
  intros Hp. induction s as [|c t IH]; simpl; [reflexivity | now rewrite Hp, IH].
Qed.

(** Facts on single characters, by enumeration of the 256 codes. *)
Ltac by_cases_on_char c :=
  destruct c as [[] [] [] [] [] [] [] []]; vm_compute; try reflexivity; try discriminate.

Lemma lower_char_not_upper c : is_upper (lower_char c) = false.
Proof. by_cases_on_char c. Qed.

Lemma lower_char_space c : is_space (lower_char c) = is_space c.
Proof. by_cases_on_char c. Qed.

Lemma lower_char_fixed c : is_upper c = false -> lower_char c = c.
Proof. unfold lower_char. now intros ->. Qed.

Lemma swap_space a c : is_space (swap a "_" c) = true -> is_space c = true.
Proof.
  unfold swap. destruct (Ascii.eqb c a); [discriminate | trivial].
Qed.

Lemma swap_upper a c : is_upper c = false -> is_upper (swap a "_" c) = false.
Proof.
  unfold swap. destruct (Ascii.eqb c a); [reflexivity | trivial].
Qed.

Lemma lstrip_fixed s : starts_clean s = true -> lstrip s = s.
Proof.
  destruct s as [|c t]; simpl; [reflexivity|].
  now destruct (is_space c).
Qed.

Lemma rstrip_fixed s : ends_clean s = true -> rstrip s = s.
Proof.
  induction s as [|c t IH]; [reflexivity|].
  destruct t as [|c' t'].
  - simpl. now destruct (is_space c).
  - intros H. change (ends_clean (String c' t') = true) in H.
    change (rstrip (String c (String c' t')))
      with (match rstrip (String c' t') with
            | EmptyString => if is_space c then EmptyString else String c EmptyString
            | t0 => String c t0
            end).
    rewrite (IH H). reflexivity.
Qed.

Lemma starts_clean_lstrip s : starts_clean (lstrip s) = true.
Proof.
  induction s as [|c t IH]; simpl; [reflexivity|].
  destruct (is_space c) eqn:E; [exact IH | simpl; now rewrite E].
Qed.

Lemma ends_clean_rstrip s : ends_clean (rstrip s) = true.
Proof.
  induction s as [|c t IH]; simpl; [reflexivity|].
  destruct (rstrip t) as [|c' t'] eqn:E.
  - destruct (is_space c) eqn:Ec; simpl; [reflexivity | now rewrite Ec].
  - exact IH.
Qed.

Lemma starts_clean_rstrip s : starts_clean s = true -> starts_clean (rstrip s) = true.
Proof.
  destruct s as [|c t]; simpl; [reflexivity|].
  intros H. destruct (rstrip t); simpl.
  - destruct (is_space c) eqn:E; [discriminate | simpl; now rewrite E].
  - exact H.
Qed.

Lemma starts_clean_map f s :
  (forall c, is_space (f c) = true -> is_space c = true) ->
  starts_clean s = true -> starts_clean (map_chars f s) = true.
Proof.
  intros Hf. destruct s as [|c t]; simpl; [reflexivity|].
  intros H. destruct (is_space (f c)) eqn:E; [|reflexivity].
  rewrite (Hf _ E) in H. discriminate.
Qed.

Lemma ends_clean_map f s :
  (forall c, is_space (f c) = true -> is_space c = true) ->
  ends_clean s = true -> ends_clean (map_chars f s) = true.
Proof.
  intros Hf. induction s as [|c t IH]; [reflexivity|].
  destruct t as [|c' t'].
  - simpl. intros H. destruct (is_space (f c)) eqn:E; [|reflexivity].
    rewrite (Hf _ E) in H. discriminate.
  - intros H. apply IH in H. exact H.
Qed.

Lemma canonical_fixed s : canonical s = true -> normalize_name s = s.
Proof.
  unfold canonical, normalize_name, strip, lower, replace. intros H.
  apply andb_true_iff in H as [H Hhyphen].
  apply andb_true_iff in H as [H Hblank].
  apply andb_true_iff in H as [H Hupper].
  apply andb_true_iff in H as [Hstart Hend].
  rewrite (lstrip_fixed s Hstart), (rstrip_fixed s Hend).
  rewrite (map_chars_id lower_char s).
  2:{ eapply all_chars_impl; [|exact Hupper]. intros c Hc. simpl in Hc.
      apply negb_true_iff in Hc. rewrite (lower_char_fixed _ Hc).
      apply Ascii.eqb_refl. }
  rewrite (map_chars_id (swap " " "_") s).
  2:{ eapply all_chars_impl; [|exact Hblank]. intros c Hc. simpl in Hc.
      apply negb_true_iff in Hc. unfold swap. rewrite Hc.
      apply Ascii.eqb_refl. }
  apply map_chars_id.
  eapply all_chars_impl; [|exact Hhyphen]. intros c Hc. simpl in Hc.
  apply negb_true_iff in Hc. unfold swap. rewrite Hc.
  apply Ascii.eqb_refl.
Qed.

Lemma normalize_name_canonical s : canonical (normalize_name s) = true.
Proof.
  unfold canonical, normalize_name, strip, lower, replace.
  repeat (apply andb_true_iff; split).
  - repeat apply starts_clean_map; try apply swap_space.
    + intros c. now rewrite lower_char_space.
    + apply starts_clean_rstrip, starts_clean_lstrip.
  - repeat apply ends_clean_map; try apply swap_space.
    + intros c. now rewrite lower_char_space.
    + apply ends_clean_rstrip.
  - rewrite !all_chars_map. apply all_chars_true. intros c.
    apply negb_true_iff. do 2 apply swap_upper. apply lower_char_not_upper.
  - rewrite !all_chars_map. apply all_chars_true. intros c.
    generalize (lower_char c). intros a.
    destruct a as [[] [] [] [] [] [] [] []]; reflexivity.
  - rewrite all_chars_map. apply all_chars_true. intros c.
    destruct c as [[] [] [] [] [] [] [] []]; reflexivity.
Qed.

Lemma normalize_name_idempotent s :
  normalize_name (normalize_name s) = normalize_name s.
Proof. apply canonical_fixed, normalize_name_canonical. Qed.

End Labels.

(** C9.  Column normalization is idempotent: normalizing twice gives the
    frame that normalizing once gives, the rows are never touched, and a
    frame whose labels are already canonical (trimmed, lowercase, no space
    and no hyphen) comes back unchanged. *)
Theorem normalize_columns_idempotent (df : DataFrame) :
  normalize_columns (normalize_columns df) = normalize_columns df
  /\ rows (normalize_columns df) = rows df
  /\ (forallb canonical (names df) = true -> normalize_columns df = df).
Proof.
  destruct df as [cols rs]. unfold normalize_columns, names. simpl.
  split; [|split].
  - f_equal. rewrite map_map. apply map_ext. intros [c t]. simpl.
    now rewrite normalize_name_idempotent.
  - reflexivity.
  - intros H. f_equal. induction cols as [|[c t] cols IH]; simpl in *.
    + reflexivity.
    + apply andb_true_iff in H as [Hc Hcols].
      rewrite (canonical_fixed c Hc), (IH Hcols). reflexivity.
Qed.

Example normalize_name_sample :
  normalize_name "  Trip-Duration Sec " = "trip_duration_sec".
Proof. reflexivity. Qed.

(** ** Frames *)

Section Frames.

Lemma cell_at_set_cell_same j v r : cell_at j (set_cell j v r) = v.
Proof.
  unfold cell_at. revert r.
  induction j as [|j IH]; intros [|x t]; simpl; auto.
Qed.

Lemma cell_at_nil j : cell_at j [] = NaN.
Proof. unfold cell_at. now destruct j. Qed.

Lemma cell_at_set_cell_other j j' v r :
  j <> j' -> cell_at j' (set_cell j v r) = cell_at j' r.
Proof.
  unfold cell_at. revert j' r.
  induction j as [|j IH]; intros [|j'] [|x t] Hne; simpl; try congruence.
  - now destruct j'.
  - rewrite IH by congruence. now destruct j'.
  - apply IH. congruence.
Qed.

Lemma names_set_dtype j t l : map fst (set_dtype j t l) = map fst l.
Proof.
  revert j. induction l as [|[c d] l IH]; intros [|j]; simpl; auto.
  now rewrite IH.
Qed.


Lemma nth_set_dtype_other j j' t l d :
  j <> j' -> nth j' (set_dtype j t l) d = nth j' l d.
Proof.
  revert j j'. induction l as [|[c u] l IH]; intros [|j] [|j'] H; simpl; try congruence.
  apply IH. congruence.
Qed.

Lemma index_of_nth_error c l j : index_of c l = Some j -> nth_error l j = Some c.
Proof.
  revert j. induction l as [|x t IH]; simpl; intros j H; [discriminate|].
  destruct (String.eqb c x) eqn:E.
  - apply String.eqb_eq in E. now inversion H; subst.
  - destruct (index_of c t) as [k|]; [|discriminate].
    inversion H; subst. simpl. now apply IH.
Qed.

Lemma index_of_lt c l j : index_of c l = Some j -> j < List.length l.
Proof.
  intros H. apply index_of_nth_error in H.
  apply nth_error_Some. congruence.
Qed.

Lemma index_of_inj c c' l j :
  index_of c l = Some j -> index_of c' l = Some j -> c = c'.
Proof.
  intros H H'. apply index_of_nth_error in H, H'. congruence.
Qed.

Lemma index_of_app_left c l l' j :
  index_of c l = Some j -> index_of c (l ++ l') = Some j.
Proof.
  revert j. induction l as [|x t IH]; simpl; intros j H; [discriminate|].
  destruct (String.eqb c x); [assumption|].
  destruct (index_of c t) as [k|]; [|discriminate].
  now rewrite (IH k eq_refl).
Qed.

Lemma index_of_app_new c l :
  index_of c l = None -> index_of c (l ++ [c]) = Some (List.length l).
Proof.
  induction l as [|x t IH]; simpl; intros H.
  - now rewrite String.eqb_refl.
  - destruct (String.eqb c x); [discriminate|].
    destruct (index_of c t); [discriminate|]. now rewrite IH.
Qed.

Lemma index_of_app_other c c' l :
  c <> c' -> index_of c l = None -> index_of c (l ++ [c']) = None.
Proof.
  intros Hne. induction l as [|x t IH]; simpl; intros H.
  - apply String.eqb_neq in Hne. now rewrite Hne.
  - destruct (String.eqb c x); [discriminate|].
    destruct (index_of c t); [discriminate|]. now rewrite IH.
Qed.

Lemma names_map_column j t f df : names (map_column j t f df) = names df.
Proof. unfold names, map_column. simpl. apply names_set_dtype. Qed.

Lemma mapM_Some {A B} (f : A -> option B) l bs :
  Exc.mapM f l = Some bs -> Forall2 (fun a b => f a = Some b) l bs.
Proof.
  revert bs. induction l as [|a t IH]; simpl; intros bs H.
  - inversion H. constructor.
  - destruct (f a) as [b|] eqn:E; [|discriminate].
    destruct (Exc.mapM f t) as [bs'|]; [|discriminate].
    inversion H; subst. constructor; auto.
Qed.

Lemma mapM_total {A B} (f : A -> option B) l :
  Forall (fun a => f a <> None) l -> exists bs, Exc.mapM f l = Some bs.
Proof.
  induction 1 as [|a t Ha Ht [bs IH]]; simpl.
  - now exists [].
  - destruct (f a) as [b|]; [|congruence].
    rewrite IH. now exists (b :: bs).
Qed.

Lemma select_filter {A} (p : A -> option bool) l mask :
  Exc.mapM p l = Some mask ->
  select mask l = filter (fun a => match p a with Some true => true | _ => false end) l.
Proof.
  revert mask. induction l as [|a t IH]; simpl; intros mask H.
  - inversion H. reflexivity.
  - destruct (p a) as [b|]; [|discriminate].
    destruct (Exc.mapM p t) as [m|]; [|discriminate].
    inversion H; subst. simpl. rewrite (IH m eq_refl). now destruct b.
Qed.

End Frames.

(** ** coerce_types *)

Section CoercionFacts.

Variable parse_number : string -> option float.
Variable str_of_number : float -> string.

(** The frame [coerce_types] was called on. *)
Variable df : DataFrame.

Local Abbreviation coerced_so_far := (coerced_so_far parse_number df).
Local Abbreviation coerced_cell := (coerced_cell parse_number str_of_number df).

Lemma coerced_so_far_start : coerced_so_far [] df.
Proof.
  repeat split; auto.
  induction (rows df); constructor; auto.
Qed.

Lemma targets_fresh c done j :
  ~ In c done -> col_index c df = Some j -> targets done df j = false.
Proof.
  intros Hc Hj. unfold targets.
  destruct (existsb _ done) eqn:E; [|reflexivity].
  apply existsb_exists in E as [c0 [Hin Hk]].
  destruct (col_index c0 df) as [k|] eqn:Ek; [|discriminate].
  apply Nat.eqb_eq in Hk. subst k.
  elim Hc. now rewrite (index_of_inj _ _ _ _ Hj Ek).
Qed.

Lemma series_index_Some c d j : series_index c d = Some j -> col_index c d = Some j.
Proof.
  unfold series_index. now destruct (count_label c (names d) =? 1).
Qed.

Lemma map_column_rows j t f (d : DataFrame) (R R' : row -> row -> Prop) :
  (forall r r', R r r' -> R' r (set_cell j (f (cell_at j r')) r')) ->
  Forall2 R (rows df) (rows d) ->
  Forall2 R' (rows df) (rows (map_column j t f d)).
Proof.
  intros HR. unfold map_column. simpl.
  induction 1; simpl; constructor; auto.
Qed.

Lemma coerce_numeric_step c done d d' :
  ~ In c done ->
  coerced_so_far done d ->
  coerce_numeric parse_number c d = Some d' ->
  coerced_so_far (c :: done) d'.
Proof.
  intros Hc (Hn & Ht & Hr). unfold coerce_numeric, has_col.
  assert (Hidx : col_index c d = col_index c df)
    by (unfold col_index; now rewrite Hn).
  rewrite Hidx.
  destruct (col_index c df) as [j|] eqn:Ej.
  - destruct (series_index c d) as [j0|] eqn:Es; [|discriminate].
    apply series_index_Some in Es. rewrite Hidx in Es.
    assert (j0 = j) by congruence. subst j0.
    simpl. intros H. inversion H; subst d'; clear H.
    pose proof (targets_fresh c done j Hc Ej) as Hfresh.
    repeat split.
    + now rewrite names_map_column.
    + intros j' Hj'. simpl in Hj'. rewrite Ej in Hj'.
      apply orb_false_iff in Hj' as [Hne Hj'].
      apply Nat.eqb_neq in Hne.
      unfold dtype_at, map_column. simpl.
      rewrite nth_set_dtype_other by assumption.
      now apply Ht.
    + eapply map_column_rows; [|exact Hr].
      intros r r' Hrr j'. simpl. rewrite Ej.
      destruct (Nat.eqb_spec j j') as [<-|Hne]; simpl.
      * rewrite cell_at_set_cell_same, (Ht j Hfresh).
        f_equal. rewrite (Hrr j), Hfresh. reflexivity.
      * rewrite cell_at_set_cell_other by assumption. apply Hrr.
  - intros H. inversion H; subst d'; clear H.
    repeat split; auto.
    + intros j Hj. simpl in Hj. rewrite Ej in Hj. now apply Ht.
    + eapply Forall2_impl; [|exact Hr]. intros r r' Hrr j.
      simpl. rewrite Ej. apply Hrr.
Qed.

Lemma coerce_numeric_loop todo : forall done d d',
  NoDup todo ->
  (forall c, In c todo -> ~ In c done) ->
  coerced_so_far done d ->
  Exc.foldM (coerce_numeric parse_number) todo d = Some d' ->
  coerced_so_far (rev todo ++ done) d'.
Proof.
  induction todo as [|c todo IH]; simpl; intros done d d' Hnd Hfresh Hinv H.
  - inversion H; subst. exact Hinv.
  - destruct (coerce_numeric parse_number c d) as [d1|] eqn:E; [|discriminate].
    simpl in H. inversion Hnd; subst.
    rewrite <- app_assoc. simpl.
    apply (IH (c :: done) d1 d'); auto.
    + intros c0 Hin [Heq|Hin']; [subst; contradiction|].
      apply (Hfresh c0); auto.
    + eapply coerce_numeric_step; eauto.
Qed.

Lemma targets_rev cs j : targets (rev cs ++ []) df j = targets cs df j.
Proof.
  rewrite app_nil_r. unfold targets.
  apply eq_true_iff_eq. rewrite !existsb_exists.
  split; intros [c [Hin Hc]]; exists c; split; auto;
    [apply in_rev | apply in_rev in Hin]; auto.
Qed.

Lemma NUM_COLS_NoDup : NoDup NUM_COLS.
Proof.
  unfold NUM_COLS.
  repeat (constructor; [simpl; intuition discriminate|]). constructor.
Qed.

Lemma surge_not_numeric : ~ In "surge_applied" NUM_COLS.
Proof. simpl. intuition discriminate. Qed.

(** The cells of [coerce_types]'s result, row by row and column by
    column. *)
Lemma coerce_types_cells d :
  coerce_types parse_number str_of_number df = Some d ->
  names d = names df
  /\ Forall2 (fun r r' => forall j, cell_at j r' = coerced_cell j (cell_at j r))
             (rows df) (rows d).
Proof.
  unfold coerce_types.
  destruct (Exc.foldM _ NUM_COLS df) as [d1|] eqn:E; [|discriminate]. simpl.
  apply (coerce_numeric_loop NUM_COLS [] df d1 NUM_COLS_NoDup) in E;
    [|intros ? ? []|apply coerced_so_far_start].
  destruct E as (Hn & Ht & Hr).
  unfold coerce_surge, has_col.
  assert (Hidx : col_index "surge_applied" d1 = col_index "surge_applied" df)
    by (unfold col_index; now rewrite Hn).
  rewrite Hidx.
  destruct (col_index "surge_applied" df) as [j|] eqn:Ej.
  - destruct (series_index _ d1) as [j0|] eqn:Es; [|discriminate].
    apply series_index_Some in Es. rewrite Hidx in Es.
    assert (j0 = j) by congruence. subst j0. simpl.
    pose proof (targets_fresh _ NUM_COLS j surge_not_numeric Ej) as Hfresh.
    assert (Hdt : dtype_at j d1 = dtype_at j df)
      by (apply Ht; now rewrite targets_rev).
    intros H.
    assert (Hd : d = map_column j DBool
                       (match dtype_at j df with
                        | DObject => surge_text str_of_number
                        | _ => astype_bool
                        end) d1)
      by (rewrite Hdt in H; destruct (dtype_at j df); congruence).
    subst d. split; [now rewrite names_map_column|].
    eapply map_column_rows; [|exact Hr].
    intros r r' Hrr j'.
    assert (Hs : targets ["surge_applied"] df j' = (j =? j'))
      by (unfold targets; simpl; rewrite Ej; apply orb_false_r).
    unfold coerced_cell. rewrite Hs. clear Hs.
    destruct (Nat.eqb_spec j j') as [Heq|Hne]; [subst j'|].
    + rewrite cell_at_set_cell_same, Hfresh, (Hrr j), targets_rev, Hfresh.
      now destruct (dtype_at j df).
    + rewrite cell_at_set_cell_other by assumption.
      rewrite (Hrr j'), targets_rev.
      now destruct (targets NUM_COLS df j').
  - intros H. inversion H; subst d; clear H. split; [assumption|].
    eapply Forall2_impl; [|exact Hr]. intros r r' Hrr j.
    assert (Hs : targets ["surge_applied"] df j = false)
      by (unfold targets; simpl; now rewrite Ej).
    unfold coerced_cell. rewrite Hs, (Hrr j), targets_rev.
    now destruct (targets NUM_COLS df j).
Qed.

End CoercionFacts.

Section CoercionRaises.

Variable parse_number : string -> option float.
Variable str_of_number : float -> string.

Lemma forallb_pointwise {A} (f g : A -> bool) l :
  (forall a, f a = g a) -> forallb f l = forallb g l.
Proof.
  intros H. induction l as [|a t IH]; simpl; [reflexivity | now rewrite H, IH].
Qed.

Lemma label_ok_names c d d' : names d' = names d -> label_ok c d' = label_ok c d.
Proof.
  intros H. unfold label_ok, has_col, col_index. now rewrite H.
Qed.

Lemma coerce_numeric_defined c d :
  label_ok c d = true <->
  exists d', coerce_numeric parse_number c d = Some d'.
Proof.
  unfold label_ok, coerce_numeric, series_index, has_col.
  destruct (col_index c d) as [j|]; simpl.
  - destruct (count_label c (names d) =? 1); simpl.
    + split; eauto.
    + split; [discriminate | intros [d' H]; discriminate].
  - split; eauto.
Qed.

Lemma coerce_numeric_names c d d' :
  coerce_numeric parse_number c d = Some d' -> names d' = names d.
Proof.
  unfold coerce_numeric.
  destruct (has_col c d); [|now intros [= <-]].
  destruct (series_index c d); simpl; [|discriminate].
  intros [= <-]. apply names_map_column.
Qed.

Lemma coerce_surge_defined d :
  label_ok "surge_applied" d = true <->
  exists d', coerce_surge str_of_number d = Some d'.
Proof.
  unfold label_ok, coerce_surge, series_index, has_col.
  destruct (col_index "surge_applied" d) as [j|]; simpl.
  - destruct (count_label _ (names d) =? 1); simpl.
    + split; [intros _ | trivial]. destruct (dtype_at j d); eauto.
    + split; [discriminate | intros [d' H]; discriminate].
  - split; eauto.
Qed.

Lemma coerce_loop_defined todo : forall d,
  forallb (fun c => label_ok c d) todo = true <->
  exists d', Exc.foldM (coerce_numeric parse_number) todo d = Some d'.
Proof.
  induction todo as [|c todo IH]; intros d; simpl.
  - split; eauto.
  - rewrite andb_true_iff, coerce_numeric_defined. split.
    + intros [[d1 E] Hrest]. rewrite E. simpl. apply IH.
      erewrite forallb_pointwise; [exact Hrest|].
      intros c0. apply label_ok_names. eapply coerce_numeric_names; eauto.
    + intros [d' H].
      destruct (coerce_numeric parse_number c d) as [d1|] eqn:E; [|discriminate].
      simpl in H. split; [eauto|].
      erewrite forallb_pointwise; [apply IH; eauto|].
      intros c0. symmetry. apply label_ok_names. eapply coerce_numeric_names; eauto.
Qed.

Lemma coerce_loop_names todo : forall d d',
  Exc.foldM (coerce_numeric parse_number) todo d = Some d' -> names d' = names d.
Proof.
  induction todo as [|c todo IH]; simpl; intros d d' H.
  - now inversion H.
  - destruct (coerce_numeric parse_number c d) as [d1|] eqn:E; [|discriminate].
    simpl in H. rewrite (IH _ _ H). eapply coerce_numeric_names; eauto.
Qed.

(** [coerce_types] returns exactly when no label it reads is carried by
    two columns. *)
Lemma coerce_types_defined df :
  labels_unique COERCED df = true <->
  exists d, coerce_types parse_number str_of_number df = Some d.
Proof.
  unfold labels_unique, COERCED, coerce_types.
  rewrite forallb_app, andb_true_iff, coerce_loop_defined. cbn [forallb].
  rewrite andb_true_r. split.
  - intros [[d1 E] Hs]. rewrite E. cbn [Exc.bind]. apply coerce_surge_defined.
    rewrite (label_ok_names _ df d1); [assumption|].
    eapply coerce_loop_names; eauto.
  - intros [d H].
    destruct (Exc.foldM _ NUM_COLS df) as [d1|] eqn:E; [|discriminate].
    cbn [Exc.bind] in H. split; [eauto|].
    rewrite <- (label_ok_names _ df d1) by (eapply coerce_loop_names; eauto).
    apply coerce_surge_defined. eauto.
Qed.

End CoercionRaises.

Section CoercionClaims.

Variable parse_number : string -> option float.
Variable str_of_number : float -> string.

Lemma targets_In cs df c j :
  In c cs -> col_index c df = Some j -> targets cs df j = true.
Proof.
  intros Hin Hj. unfold targets. apply existsb_exists.
  exists c. split; [assumption|]. rewrite Hj. apply Nat.eqb_refl.
Qed.

Lemma targets_app cs cs' df j :
  targets (cs ++ cs') df j = targets cs df j || targets cs' df j.
Proof. unfold targets. apply existsb_app. Qed.

Lemma to_numeric_cell_numeric t x : is_numeric (to_numeric_cell parse_number t x) = true.
Proof.
  destruct x as [q|b|s]; simpl; auto.
  - now destruct t.
  - now destruct (parse_number s).
Qed.

(** C6.  On a frame in which no label of the registry is carried by two
    columns (pandas raises otherwise), the type coercer returns a frame
    with the same labels and the same rows in the same order; under every
    present numeric column of the registry each cell is a number or the
    missing marker, text that does not parse as a number becomes the
    missing marker, text that parses becomes its number, and the cells of
    the columns outside the registry are unchanged. *)
Theorem coerce_types_numeric (df : DataFrame) :
  labels_unique COERCED df = true ->
  exists d,
    coerce_types parse_number str_of_number df = Some d
    /\ names d = names df
    /\ Forall2 (fun r r' =>
         (forall c j, In c NUM_COLS -> col_index c df = Some j ->
            is_numeric (cell_at j r') = true
            /\ (forall s, cell_at j r = Str s -> parse_number s = None ->
                  cell_at j r' = NaN)
            /\ (forall s q, cell_at j r = Str s -> parse_number s = Some q ->
                  cell_at j r' = Num q)
            /\ (forall q, cell_at j r = Num q -> cell_at j r' = Num q)
            /\ (cell_at j r = NaN -> cell_at j r' = NaN))
         /\ (forall j, targets COERCED df j = false -> cell_at j r' = cell_at j r))
       (rows df) (rows d).
Proof.
  intros Hu.
  apply (coerce_types_defined parse_number str_of_number) in Hu as [d Hd].
  exists d. split; [assumption|].
  apply coerce_types_cells in Hd as [Hn Hr]. split; [assumption|].
  eapply Forall2_impl; [|exact Hr]. clear Hr.
  intros r r' Hrr. split.
  - intros c j Hin Hj. rewrite (Hrr j). unfold coerced_cell.
    rewrite (targets_In _ _ _ _ Hin Hj).
    split; [apply to_numeric_cell_numeric|].
    repeat split.
    + intros s Hs Hp. rewrite Hs. simpl. now rewrite Hp.
    + intros s q Hs Hp. rewrite Hs. simpl. now rewrite Hp.
    + intros q Hq. now rewrite Hq.
    + intros Hx. now rewrite Hx.
  - intros j Hj. rewrite (Hrr j). unfold coerced_cell.
    unfold COERCED in Hj. rewrite targets_app in Hj.
    apply orb_false_iff in Hj as [-> ->]. reflexivity.
Qed.

(** The textual branch, on text and on a missing value. *)
Lemma surge_text_value s :
  surge_text str_of_number (Str s)
  = Bool (String.eqb (lower (strip s)) "true" || String.eqb (lower (strip s)) "1").
Proof.
  unfold surge_text, surge_map. cbn [astype_str].
  destruct (String.eqb (lower (strip s)) "true"); [reflexivity|].
  destruct (String.eqb (lower (strip s)) "false") eqn:F.
  - apply String.eqb_eq in F. now rewrite F.
  - destruct (String.eqb (lower (strip s)) "1"); [reflexivity|].
    now destruct (String.eqb (lower (strip s)) "0").
Qed.

Lemma surge_text_bool x : exists b, surge_text str_of_number x = Bool b.
Proof.
  unfold surge_text, surge_map.
  repeat match goal with
         | |- context [String.eqb ?a ?b] => destruct (String.eqb a b)
         end; cbn; eauto.
Qed.

(** The cell [coerce_types] leaves under [surge_applied]. *)
Lemma coerce_types_surge_cell df d j :
  coerce_types parse_number str_of_number df = Some d ->
  col_index "surge_applied" df = Some j ->
  Forall2 (fun r r' =>
       cell_at j r' = match dtype_at j df with
                      | DObject => surge_text str_of_number (cell_at j r)
                      | _ => astype_bool (cell_at j r)
                      end)
    (rows df) (rows d).
Proof.
  intros Hd Hj.
  apply coerce_types_cells in Hd as [_ Hr].
  eapply Forall2_impl; [|exact Hr]. clear Hr.
  intros r r' Hrr. rewrite (Hrr j). unfold coerced_cell.
  rewrite (targets_fresh df _ NUM_COLS j surge_not_numeric Hj).
  now rewrite (targets_In ["surge_applied"] df _ j (or_introl eq_refl) Hj).
Qed.

(** C5.  What the coercer does to a [surge_applied] column of text depends
    on the dtype pandas gave the column.  With dtype [object] every row is
    kept and every cell ends as a boolean: the text is trimmed and
    lowercased, ["true"] and ["1"] give true, and every other text --
    ["false"], ["0"], the empty string, anything unrecognized -- gives
    false, as does an empty cell.  With the string dtype the test
    [dtype == object] fails and the cells are cast by truthiness: every
    cell ends as a boolean, and every text that is not empty gives true,
    ["false"] and ["0"] included. *)
Theorem coerce_types_surge_text (df d : DataFrame) (j : nat) :
  coerce_types parse_number str_of_number df = Some d ->
  col_index "surge_applied" df = Some j ->
  (dtype_at j df = DObject ->
   Forall2 (fun r r' =>
        (forall s, cell_at j r = Str s ->
           cell_at j r' =
             Bool (String.eqb (lower (strip s)) "true"
                   || String.eqb (lower (strip s)) "1"))
        /\ (cell_at j r = NaN -> cell_at j r' = Bool false)
        /\ exists b, cell_at j r' = Bool b)
     (rows df) (rows d))
  /\ (dtype_at j df = DStr ->
      Forall2 (fun r r' =>
           (forall s, cell_at j r = Str s ->
              cell_at j r' = Bool (negb (String.eqb s "")))
           /\ exists b, cell_at j r' = Bool b)
        (rows df) (rows d)).
Proof.
  intros Hd Hj.
  pose proof (coerce_types_surge_cell df d j Hd Hj) as Hr.
  split; intros Ht; rewrite Ht in Hr;
    (eapply Forall2_impl; [|exact Hr]); intros r r' ->.
  - split; [|split].
    + intros s ->. apply surge_text_value.
    + intros ->. reflexivity.
    + apply surge_text_bool.
  - split.
    + intros s ->. reflexivity.
    + destruct (cell_at j r); cbn; eauto.
Qed.

(** C10.  When [surge_applied] is present in a representation that is not
    textual, the coercer casts each cell by Python truthiness: a missing
    value (NaN) becomes true, a number becomes true unless it is zero.
    The textual branch would have turned the missing value into false, and
    the numeric coercion turns what it cannot read into the missing
    marker. *)
Theorem coerce_types_surge_truthiness (df d : DataFrame) (j : nat) :
  coerce_types parse_number str_of_number df = Some d ->
  col_index "surge_applied" df = Some j ->
  dtype_at j df <> DObject ->
  Forall2 (fun r r' =>
       cell_at j r' = astype_bool (cell_at j r)
       /\ (cell_at j r = NaN -> cell_at j r' = Bool true)
       /\ (forall q, cell_at j r = Num q ->
             cell_at j r' = Bool (negb (q =? 0)%float)))
    (rows df) (rows d)
  /\ surge_text str_of_number NaN = Bool false
  /\ (forall t s, parse_number s = None ->
        to_numeric_cell parse_number t (Str s) = NaN).
Proof.
  intros Hd Hj Ht. split; [|split].
  - apply coerce_types_cells in Hd as [_ Hr].
    eapply Forall2_impl; [|exact Hr]. clear Hr.
    intros r r' Hrr.
    assert (E : cell_at j r' = astype_bool (cell_at j r)).
    { rewrite (Hrr j). unfold coerced_cell.
      rewrite (targets_fresh df _ NUM_COLS j surge_not_numeric Hj).
      rewrite (targets_In ["surge_applied"] df _ j (or_introl eq_refl) Hj).
      destruct (dtype_at j df); congruence. }
    rewrite E. repeat split.
    + intros ->. reflexivity.
    + now intros q ->.
  - reflexivity.
  - intros t s Hs. simpl. now rewrite Hs.
Qed.

End CoercionClaims.

(** ** clean_rows *)

Section Filtering.

Lemma apply_rule_spec c p df df' :
  apply_rule c p df = Some df' ->
  columns df' = columns df
  /\ rows df' = filter (fun r => rule_ok df r (c, p)) (rows df).
Proof.
  unfold apply_rule, rule_ok. simpl.
  destruct (col_index c df) as [j|].
  - destruct (Exc.mapM _ (rows df)) as [mask|] eqn:E; [|discriminate].
    simpl. intros [= <-]. simpl. split; [reflexivity|].
    now apply (select_filter (fun r => p (cell_at j r))).
  - intros [= <-]. split; [reflexivity|].
    induction (rows df) as [|r t IH]; simpl; congruence.
Qed.

Lemma rule_ok_columns df df' r cp :
  columns df' = columns df -> rule_ok df' r cp = rule_ok df r cp.
Proof.
  intros H. unfold rule_ok, col_index, names. now rewrite H.
Qed.

Lemma filter_filter {A} (f g : A -> bool) l :
  filter g (filter f l) = filter (fun a => f a && g a) l.
Proof.
  induction l as [|a t IH]; simpl; [reflexivity|].
  destruct (f a); simpl; [destruct (g a)|]; now rewrite IH.
Qed.

Lemma apply_rules_spec rules : forall d d',
  Exc.foldM (fun cp => apply_rule (fst cp) (snd cp)) rules d = Some d' ->
  columns d' = columns d
  /\ rows d' = filter (fun r => forallb (rule_ok d r) rules) (rows d).
Proof.
  induction rules as [|[c p] rules IH]; simpl; intros d d' H.
  - inversion H; subst. split; [reflexivity|].
    induction (rows d') as [|r t IHt]; simpl; congruence.
  - destruct (apply_rule c p d) as [d1|] eqn:E; [|discriminate].
    simpl in H. apply apply_rule_spec in E as [Hc Hr].
    apply IH in H as [Hc' Hr']. split; [congruence|].
    rewrite Hr', Hr, filter_filter. apply filter_ext. intros r.
    f_equal. apply forallb_pointwise. intros cp. now apply rule_ok_columns.
Qed.

Lemma foldM_app {A S} (f : A -> S -> option S) l l' s :
  Exc.foldM f (l ++ l') s = Exc.bind (Exc.foldM f l s) (Exc.foldM f l').
Proof.
  revert s. induction l as [|a t IH]; simpl; intros s; [reflexivity|].
  destruct (f a s); simpl; auto.
Qed.

Lemma foldM_map {A B S} (g : A -> B) (f : B -> S -> option S) l s :
  Exc.foldM f (map g l) s = Exc.foldM (fun a => f (g a)) l s.
Proof.
  revert s. induction l as [|a t IH]; simpl; intros s; [reflexivity|].
  destruct (f (g a) s); simpl; auto.
Qed.

(** [clean_rows] is the loop over its rules. *)
Lemma clean_rows_loop d :
  clean_rows d = Exc.foldM (fun cp => apply_rule (fst cp) (snd cp)) validity_rules d.
Proof.
  unfold clean_rows, validity_rules.
  rewrite foldM_app. cbn [Exc.foldM fst snd].
  destruct (apply_rule "trip_duration_sec" is_positive d) as [d1|]; [|reflexivity].
  cbn [Exc.bind].
  destruct (apply_rule "trip_duration_min" is_positive d1) as [d2|]; [|reflexivity].
  cbn [Exc.bind].
  destruct (apply_rule "distance_traveled_km" is_positive d2) as [d3|]; [|reflexivity].
  cbn [Exc.bind].
  rewrite foldM_app, foldM_map. cbn [fst snd].
  destruct (Exc.foldM _ MONEY_COLS d3) as [d4|]; [|reflexivity].
  cbn [Exc.bind Exc.foldM fst snd].
  destruct (apply_rule "num_of_passengers" at_least_one d4) as [d5|]; [|reflexivity].
  cbn [Exc.bind].
  now destruct (apply_rule "kph" sane_speed d5).
Qed.

(** The survivors of [clean_rows] are the rows that pass every rule whose
    column is present, in their original order. *)
Lemma clean_rows_spec d df :
  clean_rows d = Some df ->
  columns df = columns d /\ rows df = filter (row_ok d) (rows d).
Proof.
  rewrite clean_rows_loop. apply apply_rules_spec.
Qed.

End Filtering.

Section FilteringTotal.

Lemma apply_rule_total c p df :
  (forall r j, In r (rows df) -> col_index c df = Some j -> p (cell_at j r) <> None) ->
  exists df', apply_rule c p df = Some df'.
Proof.
  intros H. unfold apply_rule.
  destruct (col_index c df) as [j|]; [|eauto].
  destruct (mapM_total (fun r => p (cell_at j r)) (rows df)) as [mask E].
  - apply Forall_forall. intros r Hr. now apply H.
  - rewrite E. simpl. eauto.
Qed.

Lemma In_by_eqb c l : existsb (String.eqb c) l = true -> In c l.
Proof.
  intros H. apply existsb_exists in H as [x [Hin Hx]].
  apply String.eqb_eq in Hx. now subst.
Qed.

Lemma fillna_missing v x : is_missing x = true -> fillna v x = v.
Proof. unfold fillna. now intros ->. Qed.

Lemma fillna_present v x : is_missing x = false -> fillna v x = x.
Proof. unfold fillna. now intros ->. Qed.

Lemma compare_cell_defined op x : is_numeric x = true -> compare_cell op x <> None.
Proof. destruct x; cbn; congruence. Qed.

Lemma fillna_numeric x : is_numeric x = true -> is_numeric (fillna (Num 0) x) = true.
Proof. unfold fillna. now destruct (is_missing x). Qed.

Lemma rules_read_numbers :
  Forall (fun cp : string * (cell -> option bool) =>
            In (fst cp) NUM_COLS
            /\ forall x, is_numeric x = true -> snd cp x <> None)
         validity_rules.
Proof.
  assert (Hcmp : forall op x, is_numeric x = true ->
            compare_cell op (fillna (Num 0) x) <> None)
    by (intros op x Hx; now apply compare_cell_defined, fillna_numeric).
  unfold validity_rules, MONEY_COLS. cbn [map app].
  repeat (apply Forall_cons;
          [split; [apply In_by_eqb; reflexivity
                  |intros x Hx; cbn [snd]; try (now apply Hcmp)]|]);
    [|apply Forall_nil].
  unfold sane_speed.
  destruct (compare_cell _ (fillna (Num 0) x)) eqn:E1; [|now apply Hcmp in E1].
  destruct (compare_cell _ x) eqn:E2; [discriminate|].
  now apply compare_cell_defined in E2.
Qed.

Lemma apply_rules_total rules : forall d,
  Forall (fun cp : string * (cell -> option bool) =>
            In (fst cp) NUM_COLS
            /\ forall x, is_numeric x = true -> snd cp x <> None) rules ->
  numeric_under NUM_COLS d ->
  exists d', Exc.foldM (fun cp => apply_rule (fst cp) (snd cp)) rules d = Some d'.
Proof.
  induction rules as [|[c p] rules IH]; cbn [Exc.foldM fst snd];
    intros d Hrules Hnum; [eauto|].
  inversion Hrules as [|? ? [Hc Hp] Hrest]; subst. cbn [fst snd] in Hc, Hp.
  destruct (apply_rule_total c p d) as [d1 E].
  - intros r j Hr Hj. apply Hp. eapply Hnum; eauto.
  - rewrite E. cbn [Exc.bind]. apply IH; [assumption|].
    apply apply_rule_spec in E as [Hcols Hrows].
    intros r c0 j Hr Hc0 Hj.
    rewrite Hrows in Hr. apply filter_In in Hr as [Hr _].
    apply (Hnum r c0 j Hr Hc0).
    unfold col_index, names in *. now rewrite <- Hcols.
Qed.

(** [clean_rows] returns on every frame whose registry columns hold no
    text. *)
Lemma clean_rows_total d :
  numeric_under NUM_COLS d -> exists df, clean_rows d = Some df.
Proof.
  rewrite clean_rows_loop. apply apply_rules_total, rules_read_numbers.
Qed.

End FilteringTotal.

Section FilterClaims.

Lemma forallb_false_witness {A} (f : A -> bool) l :
  forallb f l = false -> exists a, In a l /\ f a = false.
Proof.
  induction l as [|a t IH]; simpl; [discriminate|].
  destruct (f a) eqn:E; simpl.
  - intros H. destruct (IH H) as [b [Hb Hf]]. eauto.
  - eauto.
Qed.

Lemma forallb_pointwise_in {A} (f g : A -> bool) l :
  (forall a, In a l -> f a = g a) -> forallb f l = forallb g l.
Proof.
  induction l as [|a t IH]; simpl; intros H; [reflexivity|].
  rewrite (H a), IH; auto.
Qed.

(** No rule tells one missing value from another. *)
Lemma rules_missing_alike :
  Forall (fun cp : string * (cell -> option bool) =>
            forall x, is_missing x = true -> snd cp x = snd cp NaN)
         validity_rules.
Proof.
  unfold validity_rules, MONEY_COLS. cbn [map app].
  repeat (apply Forall_cons;
          [intros x Hx; cbn [snd];
           try (unfold is_positive, is_nonneg, at_least_one;
                now rewrite (fillna_missing _ x Hx))|]);
    [|apply Forall_nil].
  unfold sane_speed. rewrite (fillna_missing _ x Hx).
  destruct x as [q|b|s]; [reflexivity|discriminate|discriminate].
Qed.

(** Every rule reads a missing value as it reads the number 0. *)
Lemma rules_missing_as_zero :
  Forall (fun cp : string * (cell -> option bool) => snd cp NaN = snd cp (Num 0))
         validity_rules.
Proof.
  unfold validity_rules, MONEY_COLS. cbn [map app].
  repeat (apply Forall_cons; [reflexivity|]). apply Forall_nil.
Qed.

(** The rules on money are the [>= 0] test; every other rule rejects a
    missing value. *)
Lemma rules_on_missing :
  Forall (fun cp : string * (cell -> option bool) =>
            if existsb (String.eqb (fst cp)) MONEY_COLS
            then snd cp = is_nonneg
            else snd cp NaN = Some false)
         validity_rules.
Proof.
  unfold validity_rules, MONEY_COLS. cbn [map app].
  repeat (apply Forall_cons; [reflexivity|]). apply Forall_nil.
Qed.

Lemma rule_of_label c :
  In c ["trip_duration_sec"; "trip_duration_min"; "distance_traveled_km";
        "kph"; "num_of_passengers"] ->
  exists p, In (c, p) validity_rules /\ p NaN = Some false.
Proof.
  unfold validity_rules, MONEY_COLS. cbn [map app In].
  intros [<-|[<-|[<-|[<-|[<-|[]]]]]]; eexists;
    (split; [repeat (first [left; reflexivity | right]) | reflexivity]).
Qed.

Lemma existsb_eqb_In c l : In c l -> existsb (String.eqb c) l = true.
Proof.
  intros H. apply existsb_exists. exists c. split; [assumption|].
  apply String.eqb_refl.
Qed.

(** C7.  In the row filter a missing value in a rule's column is read as
    the number 0: every rule gives the same verdict on both, and putting 0
    in place of a missing cell never changes whether a row is kept.  So a
    row whose duration in seconds or minutes, distance, speed or passenger
    count is missing is dropped, and a missing monetary value never drops
    a row: the row is kept as soon as every other rule accepts it. *)
Theorem clean_rows_missing_as_zero (d df : DataFrame) :
  clean_rows d = Some df ->
  (forall cp, In cp validity_rules -> snd cp NaN = snd cp (Num 0))
  /\ (forall r j, cell_at j r = NaN ->
        row_ok d (set_cell j (Num 0) r) = row_ok d r)
  /\ (forall r c j,
        In c ["trip_duration_sec"; "trip_duration_min"; "distance_traveled_km";
              "kph"; "num_of_passengers"] ->
        col_index c d = Some j -> cell_at j r = NaN -> ~ In r (rows df))
  /\ (forall r, In r (rows d) ->
        (forall cp, In cp validity_rules ->
           rule_ok d r cp = true
           \/ (In (fst cp) MONEY_COLS
               /\ exists j, col_index (fst cp) d = Some j /\ cell_at j r = NaN)) ->
        In r (rows df)).
Proof.
  intros H. apply clean_rows_spec in H as [_ Hrows].
  pose proof (proj1 (Forall_forall _ _) rules_missing_as_zero) as Hzero.
  split; [exact Hzero|]. split; [|split].
  - intros r j Hj. unfold row_ok. apply forallb_pointwise_in.
    intros cp Hcp. unfold rule_ok.
    destruct (col_index (fst cp) d) as [k|]; [|reflexivity].
    destruct (Nat.eq_dec j k) as [<-|Hne].
    + now rewrite cell_at_set_cell_same, Hj, (Hzero cp Hcp).
    + now rewrite cell_at_set_cell_other.
  - intros r c j Hc Hj Hx Hin.
    rewrite Hrows in Hin. apply filter_In in Hin as [_ Hok].
    destruct (rule_of_label c Hc) as [p [Hp Hnan]].
    unfold row_ok in Hok. rewrite forallb_forall in Hok.
    specialize (Hok _ Hp). unfold rule_ok in Hok. cbn [fst snd] in Hok.
    rewrite Hj, Hx, Hnan in Hok. discriminate.
  - intros r Hr Hall. rewrite Hrows. apply filter_In. split; [assumption|].
    unfold row_ok. apply forallb_forall. intros cp Hcp.
    destruct (Hall cp Hcp) as [Hok|[Hm [j [Hj Hx]]]]; [assumption|].
    pose proof (proj1 (Forall_forall _ _) rules_on_missing cp Hcp) as Hrule.
    cbn beta in Hrule. rewrite (existsb_eqb_In _ _ Hm) in Hrule.
    unfold rule_ok. now rewrite Hj, Hx, Hrule.
Qed.

End FilterClaims.

Section DroppedColumn.

Lemma cell_at_tl k r : cell_at k (tl r) = cell_at (S k) r.
Proof. destruct r; [now rewrite !cell_at_nil | reflexivity]. Qed.

Lemma names_drop_column c d :
  names (drop_column c d) = filter (fun x => negb (String.eqb c x)) (names d).
Proof.
  unfold names, drop_column. simpl.
  induction (columns d) as [|[x t] l IH]; simpl; [reflexivity|].
  destruct (String.eqb c x); simpl; now rewrite IH.
Qed.

Lemma index_of_dropped c hdr :
  index_of c (filter (fun x => negb (String.eqb c x)) hdr) = None.
Proof.
  induction hdr as [|x hs IH]; simpl; [reflexivity|].
  destruct (String.eqb c x) eqn:E; simpl; [assumption|].
  now rewrite E, IH.
Qed.

(** Another label keeps its column, read at its new position. *)
Lemma index_of_kept c c' hdr :
  c' <> c ->
  match index_of c' hdr with
  | Some k =>
      exists k', index_of c' (filter (fun x => negb (String.eqb c x)) hdr) = Some k'
                 /\ forall r, cell_at k' (drop_cells c hdr r) = cell_at k r
  | None => index_of c' (filter (fun x => negb (String.eqb c x)) hdr) = None
  end.
Proof.
  intros Hne. induction hdr as [|x hs IH]; simpl; [reflexivity|].
  destruct (String.eqb c' x) eqn:E'.
  - apply String.eqb_eq in E'. subst x.
    assert (E : String.eqb c c' = false) by (apply String.eqb_neq; congruence).
    rewrite E. simpl. rewrite String.eqb_refl.
    exists 0. split; [reflexivity|]. intros r. reflexivity.
  - destruct (String.eqb c x) eqn:E; simpl.
    + destruct (index_of c' hs) as [k|].
      * destruct IH as [k' [Hk' Hcell]]. exists k'. split; [assumption|].
        intros r. now rewrite Hcell, cell_at_tl.
      * assumption.
    + rewrite E'. destruct (index_of c' hs) as [k|].
      * destruct IH as [k' [Hk' Hcell]]. rewrite Hk'.
        exists (S k'). split; [reflexivity|].
        intros r. change (cell_at (S k') (cell_at 0 r :: drop_cells c hs (tl r)))
                    with (cell_at k' (drop_cells c hs (tl r))).
        now rewrite Hcell, cell_at_tl.
      * now rewrite IH.
Qed.

(** On the frame without the columns labelled [c], a rule on [c] is
    skipped and every other rule reads what it read before. *)
Lemma rule_ok_drop_column c d r cp :
  rule_ok (drop_column c d) (drop_cells c (names d) r) cp
  = String.eqb c (fst cp) || rule_ok d r cp.
Proof.
  unfold rule_ok, col_index. rewrite names_drop_column.
  destruct (String.eqb c (fst cp)) eqn:E; simpl.
  - apply String.eqb_eq in E. subst c. now rewrite index_of_dropped.
  - apply String.eqb_neq in E.
    pose proof (index_of_kept c (fst cp) (names d) (not_eq_sym E)) as H.
    destruct (index_of (fst cp) (names d)) as [k|].
    + destruct H as [k' [-> Hcell]]. now rewrite Hcell.
    + now rewrite H.
Qed.

Lemma drop_column_numeric c d :
  numeric_under NUM_COLS d -> numeric_under NUM_COLS (drop_column c d).
Proof.
  intros Hnum r' c' k' Hr' Hc' Hk'.
  unfold drop_column in Hr'. cbn [rows] in Hr'.
  apply in_map_iff in Hr' as [r [<- Hr]].
  unfold col_index in Hk'. rewrite names_drop_column in Hk'.
  destruct (String.eqb c' c) eqn:E.
  - apply String.eqb_eq in E. subst c'. now rewrite index_of_dropped in Hk'.
  - apply String.eqb_neq in E.
    pose proof (index_of_kept c c' (names d) E) as H.
    destruct (index_of c' (names d)) as [k|] eqn:Ek.
    + destruct H as [k0 [Hk0 Hcell]].
      assert (k0 = k') by congruence. subst k0.
      rewrite Hcell. now apply (Hnum r c' k).
    + congruence.
Qed.

Lemma filter_map_swap {A B} (g : A -> B) (f : B -> bool) l :
  filter f (map g l) = map g (filter (fun a => f (g a)) l).
Proof.
  induction l as [|a t IH]; simpl; [reflexivity|].
  destruct (f (g a)); simpl; now rewrite IH.
Qed.

Lemma filter_length_le {A} (f g : A -> bool) l :
  (forall a, f a = true -> g a = true) ->
  List.length (filter f l) <= List.length (filter g l).
Proof.
  intros H. induction l as [|a t IH]; simpl; [lia|].
  destruct (f a) eqn:E.
  - rewrite (H a E). simpl. lia.
  - destruct (g a); simpl; lia.
Qed.

(** C8.  A rule whose column is absent filters nothing: its step returns
    the frame as it is; every row that [clean_rows] drops fails a rule
    whose column is present; and on the frame from which the columns
    labelled [c] were removed, the survivors are the rows accepted by the
    rules on the other labels, so that removing a column never lowers the
    number of survivors.  On a frame without text under the registry, such
    as [coerce_types] returns, [clean_rows] does return once the column is
    removed. *)
Theorem clean_rows_skips_absent (d df : DataFrame) :
  clean_rows d = Some df ->
  (forall c rule, has_col c d = false -> apply_rule c rule d = Some d)
  /\ (forall r, In r (rows d) -> ~ In r (rows df) ->
        exists cp, In cp validity_rules
                   /\ has_col (fst cp) d = true
                   /\ rule_ok d r cp = false)
  /\ (forall c d', clean_rows (drop_column c d) = Some d' ->
        rows d' = map (drop_cells c (names d))
                      (filter (fun r =>
                                 forallb (fun cp => String.eqb c (fst cp) || rule_ok d r cp)
                                         validity_rules)
                              (rows d))
        /\ List.length (rows df) <= List.length (rows d'))
  /\ (forall c, numeric_under NUM_COLS d ->
        exists d', clean_rows (drop_column c d) = Some d').
Proof.
  intros H. apply clean_rows_spec in H as [_ Hrows]. split; [|split; [|split]];
    [| | |intros c Hnum; now apply clean_rows_total, drop_column_numeric].
  - intros c rule Hc. unfold apply_rule. unfold has_col in Hc.
    now destruct (col_index c d).
  - intros r Hr Hout.
    destruct (row_ok d r) eqn:E.
    + elim Hout. rewrite Hrows. apply filter_In. auto.
    + apply forallb_false_witness in E as [cp [Hcp Hfail]].
      exists cp. repeat split; auto.
      unfold rule_ok in Hfail. unfold has_col.
      now destruct (col_index (fst cp) d).
  - intros c d' H'. apply clean_rows_spec in H' as [_ Hrows'].
    assert (E : rows d' = map (drop_cells c (names d))
                (filter (fun r =>
                           forallb (fun cp => String.eqb c (fst cp) || rule_ok d r cp)
                                   validity_rules)
                        (rows d))).
    { rewrite Hrows'. unfold drop_column at 2. cbn [rows].
      rewrite filter_map_swap. f_equal. apply filter_ext. intros r.
      unfold row_ok. apply forallb_pointwise. intros cp.
      apply rule_ok_drop_column. }
    split; [exact E|].
    rewrite E, length_map, Hrows. apply filter_length_le.
    intros r Hok. unfold row_ok in Hok. rewrite forallb_forall in Hok.
    apply forallb_forall. intros cp Hcp. rewrite (Hok cp Hcp).
    apply orb_true_r.
Qed.

End DroppedColumn.

(** ** drop_duplicates_by_key *)

Section Deduplication.

Lemma duplicated_from_length seen ks :
  List.length (duplicated_from seen ks) = List.length ks.
Proof.
  revert seen. induction ks as [|k t IH]; simpl; intros seen; [reflexivity|].
  now rewrite IH.
Qed.

(** Flagged rows and kept rows add up to the rows there were. *)
Lemma select_count {A} (mask : list bool) (l : list A) :
  List.length mask = List.length l ->
  List.length (select (map negb mask) l) + count_true mask = List.length l.
Proof.
  unfold count_true. revert l.
  induction mask as [|b m IH]; intros [|x t] H; simpl in *; try discriminate; auto.
  injection H as Hlen. specialize (IH t Hlen).
  destruct b; simpl; lia.
Qed.

Variable proj : row -> list cell.

Local Abbreviation kept := (kept proj).

Lemma kept_fresh l : forall seen,
  Forall (fun r => existsb (key_eqb (proj r)) seen = false) (kept seen l)
  /\ ForallOrdPairs (fun a b => key_eqb (proj b) (proj a) = false) (kept seen l).
Proof.
  unfold kept.
  induction l as [|r t IH]; simpl; intros seen.
  - split; constructor.
  - destruct (IH (proj r :: seen)) as [Hseen Hpairs].
    assert (Hsplit : Forall (fun x => key_eqb (proj x) (proj r) = false
                                      /\ existsb (key_eqb (proj x)) seen = false)
                            (select (map negb (duplicated_from (proj r :: seen) (map proj t))) t)).
    { eapply Forall_impl; [|exact Hseen]. simpl. intros x Hx.
      now apply orb_false_iff in Hx. }
    destruct (existsb (key_eqb (proj r)) seen) eqn:E; simpl.
    + split; [|assumption].
      eapply Forall_impl; [|exact Hsplit]. now intros x [_ Hx].
    + split.
      * constructor; [assumption|].
        eapply Forall_impl; [|exact Hsplit]. now intros x [_ Hx].
      * constructor; [|assumption].
        eapply Forall_impl; [|exact Hsplit]. now intros x [Hx _].
Qed.

Lemma ordered_pairs_nth {A} (R : A -> A -> Prop) l d :
  ForallOrdPairs R l ->
  forall i j, i < j -> j < List.length l -> R (nth i l d) (nth j l d).
Proof.
  induction 1 as [|a l Ha Hl IH]; simpl; intros i j Hij Hj; [lia|].
  destruct j as [|j]; [lia|]. destruct i as [|i].
  - rewrite Forall_forall in Ha. apply Ha, nth_In. lia.
  - apply IH; lia.
Qed.

End Deduplication.

Section DeduplicationClaims.

Lemma key_eqb_differs (f g : string -> cell) key :
  key_eqb (map f key) (map g key) = false ->
  exists c, In c key /\ cell_eqb (f c) (g c) = false.
Proof.
  induction key as [|c t IH]; simpl; [discriminate|].
  destruct (cell_eqb (f c) (g c)) eqn:E; simpl.
  - intros H. destruct (IH H) as [c' [Hin Hc']]. eauto.
  - eauto.
Qed.

Lemma key_columns_present df c :
  In c (key_columns df) -> In c COMPOSITE_KEY /\ exists k, col_index c df = Some k.
Proof.
  unfold key_columns. intros H. apply filter_In in H as [Hin Hc].
  split; [assumption|]. unfold has_col in Hc.
  destruct (col_index c df) as [k|]; [eauto | discriminate].
Qed.

(** C2.  [drop_duplicates_by_key] reports as its key the composite-key
    labels present in the frame, in registry order.  When that key is not
    empty, any two rows at different positions of the output differ, as
    cells compare with missing equal to missing, under at least one key
    column, and the reported number of duplicates is the number of rows
    before minus the number of rows after.  When no composite-key column
    is present the frame is returned as it is and the number reported
    is 0. *)
Theorem drop_duplicates_by_key_correct (df : DataFrame) :
  let '(out, dupes, key) := drop_duplicates_by_key df in
  key = filter (fun c => has_col c df) COMPOSITE_KEY
  /\ columns out = columns df
  /\ dupes = List.length (rows df) - List.length (rows out)
  /\ List.length (rows out) <= List.length (rows df)
  /\ (key <> [] ->
      forall i j, i < j -> j < List.length (rows out) ->
        exists c k, In c key /\ col_index c out = Some k
                    /\ cell_eqb (cell_at k (nth j (rows out) []))
                                (cell_at k (nth i (rows out) [])) = false)
  /\ (key = [] -> out = df /\ dupes = 0).
Proof.
  unfold drop_duplicates_by_key.
  destruct (key_columns df) as [|c0 key0] eqn:Ekey.
  - repeat split; auto; try lia. intros H. now elim H.
  - rewrite <- Ekey.
    pose proof (select_count (duplicated df (key_columns df)) (rows df)) as Hcount.
    unfold duplicated in Hcount at 1.
    rewrite duplicated_from_length, length_map in Hcount.
    specialize (Hcount eq_refl).
    split; [reflexivity|]. split; [reflexivity|].
    split; [|split; [|split]].
    + unfold drop_duplicates. cbn [rows]. lia.
    + unfold drop_duplicates. cbn [rows]. lia.
    + intros _ i j Hij Hj.
      destruct (kept_fresh (project df (key_columns df)) (rows df) []) as [_ Hpairs].
      pose proof (ordered_pairs_nth _ _ [] Hpairs i j Hij Hj) as Hne.
      cbn beta in Hne. unfold project in Hne.
      apply key_eqb_differs in Hne as [c [Hc Hdiff]].
      destruct (key_columns_present df c Hc) as [_ [k Hk]].
      rewrite Hk in Hdiff. exists c, k. repeat split; auto.
    + intros H. rewrite H in Ekey. discriminate.
Qed.

End DeduplicationClaims.

(** ** recompute_duration_fields *)

Section Recomputation.

(** [d[c] = ...] puts the new cells under [c], at the position the label
    already had or at the right end, and leaves every other column where
    it was and as it was. *)
Lemma assign_column_spec c value d d' :
  assign_column c value d = Some d' ->
  exists j,
    col_index c d' = Some j
    /\ (col_index c d = Some j \/ col_index c d = None)
    /\ (forall c', c' <> c -> col_index c' d' = col_index c' d)
    /\ Forall2 (fun r r' =>
          (exists v, value r = Some v /\ cell_at j r' = v)
          /\ forall c' k, c' <> c -> col_index c' d = Some k ->
               cell_at k r' = cell_at k r)
         (rows d) (rows d').
Proof.
  unfold assign_column.
  assert (Hrows : forall j rs,
    (forall c' k, c' <> c -> col_index c' d = Some k -> k <> j) ->
    Exc.mapM (fun r => v <- value r ;; Some (set_cell j v r)) (rows d) = Some rs ->
    Forall2 (fun r r' =>
          (exists v, value r = Some v /\ cell_at j r' = v)
          /\ forall c' k, c' <> c -> col_index c' d = Some k ->
               cell_at k r' = cell_at k r)
         (rows d) rs).
  { intros j rs Hother E. apply mapM_Some in E.
    eapply Forall2_impl; [|exact E]. intros r r' Hr. cbn beta in Hr.
    destruct (value r) as [v|]; [|discriminate]. simpl in Hr.
    injection Hr as <-. split.
    - exists v. split; [reflexivity | apply cell_at_set_cell_same].
    - intros c' k Hc' Hk. apply cell_at_set_cell_other.
      apply not_eq_sym. eapply Hother; eauto. }
  destruct (col_index c d) as [j|] eqn:Ej.
  - destruct (Exc.mapM _ (rows d)) as [rs|] eqn:E; [|discriminate].
    simpl. intros [= <-]. exists j.
    assert (Hn : names (mkDF (set_dtype j DNumeric (columns d)) rs) = names d)
      by apply names_set_dtype.
    unfold col_index at 1. rewrite Hn. fold (col_index c d).
    split; [assumption|]. split; [now left|]. split.
    + intros c' _. unfold col_index. now rewrite Hn.
    + cbn [rows]. apply Hrows; [|assumption].
      intros c' k Hc' Hk ->. apply Hc'. eapply index_of_inj; eauto.
  - destruct (Exc.mapM _ (rows d)) as [rs|] eqn:E; [|discriminate].
    simpl. intros [= <-]. exists (List.length (columns d)).
    assert (Hn : names (mkDF (columns d ++ [(c, DNumeric)]) rs) = (names d ++ [c])%list)
      by (unfold names; simpl; now rewrite map_app).
    assert (Hlen : List.length (columns d) = List.length (names d))
      by (unfold names; now rewrite length_map).
    unfold col_index. rewrite !Hn. split; [|split; [now right|split]].
    + rewrite Hlen. now apply index_of_app_new.
    + intros c' Hc'. destruct (index_of c' (names d)) as [k|] eqn:Ek.
      * now apply index_of_app_left.
      * now apply index_of_app_other.
    + cbn [rows]. apply Hrows; [|assumption].
      intros c' k Hc' Hk. apply index_of_lt in Hk. lia.
Qed.

Lemma Forall2_compose {A} (R1 R2 R3 : A -> A -> Prop) l1 l2 l3 :
  (forall a b c, R1 a b -> R2 b c -> R3 a c) ->
  Forall2 R1 l1 l2 -> Forall2 R2 l2 l3 -> Forall2 R3 l1 l3.
Proof.
  intros H H12. revert l3.
  induction H12; intros l3 H23; inversion H23; subst; constructor; eauto.
Qed.

Lemma Forall2_same {A} (R : A -> A -> Prop) l :
  (forall a, R a a) -> Forall2 R l l.
Proof. intros H. induction l; constructor; auto. Qed.

End Recomputation.

Section RecomputationSpec.

Local Abbreviation MIN := "trip_duration_min".
Local Abbreviation SEC := "trip_duration_sec".
Local Abbreviation HR := "trip_duration_hr".

Lemma hours_step d d' jm :
  col_index MIN d = Some jm ->
  assign_column HR (hours_from_minutes jm) d = Some d' ->
  (forall c, c <> HR -> col_index c d' = col_index c d)
  /\ Forall2 (fun r r' =>
        (forall c k, c <> HR -> col_index c d = Some k -> cell_at k r' = cell_at k r)
        /\ exists jh v, col_index HR d' = Some jh
                        /\ div_cell 60 (cell_at jm r') = Some v
                        /\ cell_at jh r' = round_cell v)
       (rows d) (rows d').
Proof.
  intros Hm H. apply assign_column_spec in H as (jh & Hjh & _ & Hother & Hrows).
  split; [assumption|].
  eapply Forall2_impl; [|exact Hrows]. intros r r' [[v [Hv Hcell]] Hsame].
  split; [assumption|].
  unfold hours_from_minutes in Hv.
  destruct (div_cell 60 (cell_at jm r)) as [v0|] eqn:E; [|discriminate].
  simpl in Hv. injection Hv as <-.
  exists jh, v0. split; [assumption|]. split; [|assumption].
  rewrite (Hsame MIN jm); [assumption|discriminate|assumption].
Qed.

Lemma recompute_spec d d' :
  recompute_duration_fields d = Some d' ->
  (forall c, c <> MIN -> c <> HR -> col_index c d' = col_index c d)
  /\ (forall jm, col_index MIN d = Some jm -> col_index MIN d' = Some jm)
  /\ (forall js, col_index SEC d = Some js -> exists jm, col_index MIN d' = Some jm)
  /\ (col_index MIN d = None -> col_index SEC d = None -> d' = d)
  /\ Forall2 (recomputed d d') (rows d) (rows d').
Proof.
  unfold recompute_duration_fields.
  destruct (col_index MIN d) as [jm|] eqn:Em.
  - (* the minutes are there *)
    cbn [Exc.bind]. rewrite Em. intros H.
    destruct (hours_step d d' jm Em H) as [Hother Hrows].
    assert (Hmin' : col_index MIN d' = Some jm)
      by (rewrite Hother; [assumption|discriminate]).
    split; [intros c _ Hc; now apply Hother|].
    split; [intros ? [= <-]; assumption|].
    split; [intros js _; eauto|].
    split; [discriminate|].
    eapply Forall2_impl; [|exact Hrows].
    intros r r' [Hsame (jh & v & Hjh & Hdiv & Hcell)].
    repeat split.
    + intros c k _ Hc Hk. now apply (Hsame c k).
    + intros j Hj. rewrite Em in Hj. injection Hj as <-.
      apply (Hsame MIN jm); [discriminate|assumption].
    + intros j Hj. congruence.
    + intros j Hj. rewrite Hmin' in Hj. injection Hj as <-. eauto.
  - destruct (col_index SEC d) as [js|] eqn:Es.
    + (* the minutes are derived from the seconds *)
      destruct (assign_column MIN (minutes_from_seconds js) d) as [d1|] eqn:E1;
        [|discriminate].
      cbn [Exc.bind].
      apply assign_column_spec in E1 as (jm & Hjm & _ & Hother1 & Hrows1).
      rewrite Hjm. intros H.
      destruct (hours_step d1 d' jm Hjm H) as [Hother Hrows].
      assert (Hmin' : col_index MIN d' = Some jm)
        by (rewrite Hother; [assumption|discriminate]).
      split; [intros c Hc1 Hc2; rewrite Hother, Hother1; auto|].
      split; [discriminate|].
      split; [intros ? _; eauto|].
      split; [discriminate|].
      eapply Forall2_compose; [|exact Hrows1|exact Hrows].
      intros r r1 r' [[v [Hv Hcell1]] Hsame1] [Hsame (jh & v' & Hjh & Hdiv & Hcell)].
      repeat split.
      * intros c k Hc1 Hc2 Hk.
        rewrite (Hsame c k), (Hsame1 c k); auto.
        rewrite Hother1; auto.
      * intros j Hj. congruence.
      * intros j _ Hj. rewrite Hmin' in Hj. injection Hj as <-.
        exists js. split; [assumption|].
        rewrite (Hsame MIN jm); [|discriminate|assumption].
        unfold minutes_from_seconds in Hv. congruence.
      * intros j Hj. rewrite Hmin' in Hj. injection Hj as <-. eauto.
    + (* neither is there *)
      cbn [Exc.bind]. rewrite Em, Es. intros [= <-].
      split; [reflexivity|]. split; [discriminate|]. split; [discriminate|].
      split; [reflexivity|].
      apply Forall2_same. intros r. repeat split; try congruence.
Qed.

End RecomputationSpec.

(** ** Numbers *)

Section Numbers.

Lemma compare_cell_true op x :
  compare_cell op x = Some true -> exists q, num_value x = Some q /\ op q = true.
Proof.
  destruct x as [q|b|s]; cbn; intros H; [| |discriminate];
    injection H as H; eauto.
Qed.

Lemma is_positive_true x :
  is_positive x = Some true ->
  exists q, num_value x = Some q /\ (0 <? q)%float = true.
Proof.
  unfold is_positive. destruct (is_missing x) eqn:E.
  - rewrite (fillna_missing _ _ E). intros H. vm_compute in H. discriminate.
  - rewrite (fillna_present _ _ E). apply compare_cell_true.
Qed.

Lemma is_nonneg_true x :
  is_nonneg x = Some true ->
  is_missing x = true \/ exists q, num_value x = Some q /\ (0 <=? q)%float = true.
Proof.
  unfold is_nonneg. destruct (is_missing x) eqn:E; [now left|].
  rewrite (fillna_present _ _ E). intros H. right.
  now apply (compare_cell_true (fun q => (0 <=? q)%float)).
Qed.

Lemma at_least_one_true x :
  at_least_one x = Some true ->
  exists q, num_value x = Some q /\ (1 <=? q)%float = true.
Proof.
  unfold at_least_one. destruct (is_missing x) eqn:E.
  - rewrite (fillna_missing _ _ E). intros H. vm_compute in H. discriminate.
  - rewrite (fillna_present _ _ E). apply compare_cell_true.
Qed.

Lemma sane_speed_true x :
  sane_speed x = Some true ->
  exists q, num_value x = Some q
            /\ (0 <? q)%float = true /\ (q <=? 160)%float = true.
Proof.
  unfold sane_speed. destruct (is_missing x) eqn:E.
  - rewrite (fillna_missing _ _ E). cbn [compare_cell Exc.bind].
    destruct (compare_cell _ x) as [b|]; cbn; intros H; vm_compute in H;
      discriminate.
  - rewrite (fillna_present _ _ E).
    destruct x as [q|b|s]; cbn; intros H; [| |discriminate];
      injection H as H; apply andb_true_iff in H as [H1 H2]; eauto.
Qed.

Lemma div_cell_value k x v q :
  num_value x = Some q -> div_cell k x = Some v -> v = Num (q / k).
Proof.
  destruct x as [q0|b|s]; simpl; intros Hq Hv; try discriminate; congruence.
Qed.

(** The two routes from the seconds to the hours, on the machine.  They
    agree on 120 seconds.  At 10.125 seconds, 0.0028125 hours, the two
    divisions by 60 that [recompute_duration_fields] performs land above
    the tie and the single division by 3600 below it. *)
Lemma hours_routes :
  round6 ((120 / 60) / 60) = round6 (120 / 3600)
  /\ round6 ((10.125 / 60) / 60) = 0.002813%float
  /\ round6 (10.125 / 3600) = 0.002812%float.
Proof. repeat split; vm_compute; reflexivity. Qed.

End Numbers.

(** ** The pipeline *)

Section PipelineFacts.

Variable parse_number : string -> option float.
Variable str_of_number : float -> string.

Local Abbreviation run := (main parse_number str_of_number).
Local Abbreviation coerce := (coerce_types parse_number str_of_number).

Lemma select_In {A} (mask : list bool) (l : list A) a :
  In a (select mask l) -> In a l.
Proof.
  revert l. induction mask as [|b m IH]; intros [|x t]; simpl; try tauto.
  destruct b; simpl; intros H.
  - destruct H; [now left | right; now apply IH].
  - right. now apply IH.
Qed.

Lemma drop_duplicates_by_key_rows d out dupes key :
  drop_duplicates_by_key d = (out, dupes, key) ->
  columns out = columns d /\ forall r, In r (rows out) -> In r (rows d).
Proof.
  unfold drop_duplicates_by_key. intros [= <- _ _].
  destruct (key_columns d); [auto|].
  split; [reflexivity|]. intros r. apply select_In.
Qed.

(** The stages behind a summary. *)
Lemma main_stages raw s :
  run raw = Some s ->
  exists dc d0 d2,
    coerce (normalize_columns raw) = Some dc
    /\ clean_rows dc = Some d0
    /\ recompute_duration_fields d0 = Some d2
    /\ drop_duplicates_by_key d2 = (silver s, dup_count s, key_used s).
Proof.
  unfold main, staged. cbn [Exc.bind].
  destruct (coerce _) as [dc|]; [|discriminate]. cbn [Exc.bind].
  destruct (clean_rows dc) as [d0|] eqn:E0; [|discriminate]. cbn [Exc.bind].
  destruct (recompute_duration_fields d0) as [d2|] eqn:E2; [|discriminate].
  cbn [Exc.bind].
  destruct (drop_duplicates_by_key d2) as [[out dupes] key] eqn:E3.
  intros [= <-]. exists dc, d0, d2. auto.
Qed.

Lemma Forall2_In_right {A B} (R : A -> B -> Prop) l l' b :
  Forall2 R l l' -> In b l' -> exists a, In a l /\ R a b.
Proof.
  induction 1 as [|a b' l l' Hab Hl IH]; simpl; [tauto|].
  intros [<-|Hin]; [eauto|].
  destruct (IH Hin) as [a0 [Ha0 HR]]. eauto.
Qed.

Lemma col_index_columns c d d' : columns d' = columns d -> col_index c d' = col_index c d.
Proof. intros H. unfold col_index, names. now rewrite H. Qed.

(** Where a row of the output comes from: a row of the coerced frame that
    passed every rule, then went through the recomputation. *)
Lemma silver_origin raw s :
  run raw = Some s ->
  exists dc d0 d2,
    coerce (normalize_columns raw) = Some dc
    /\ clean_rows dc = Some d0
    /\ recompute_duration_fields d0 = Some d2
    /\ names dc = names (normalize_columns raw)
    /\ columns d0 = columns dc
    /\ columns (silver s) = columns d2
    /\ forall r', In r' (rows (silver s)) ->
         exists r, In r (rows dc) /\ row_ok dc r = true /\ recomputed d0 d2 r r'.
Proof.
  intros H. apply main_stages in H as (dc & d0 & d2 & Hc & H0 & H2 & H3).
  exists dc, d0, d2. repeat (split; [assumption|]).
  pose proof (coerce_types_cells _ _ _ _ Hc) as [Hn _].
  pose proof (clean_rows_spec _ _ H0) as [Hcols Hrows].
  pose proof (recompute_spec _ _ H2) as (_ & _ & _ & _ & Hrec).
  pose proof (drop_duplicates_by_key_rows _ _ _ _ H3) as [Hcols' Hsub].
  repeat (split; [assumption|]).
  intros r' Hr'. apply Hsub in Hr'.
  destruct (Forall2_In_right _ _ _ _ Hrec Hr') as [r [Hr HR]].
  rewrite Hrows in Hr. apply filter_In in Hr as [Hr Hok].
  eauto.
Qed.

Local Abbreviation MIN := "trip_duration_min".
Local Abbreviation SEC := "trip_duration_sec".
Local Abbreviation HR := "trip_duration_hr".

(** A rule on a column that the recomputation does not write still holds
    of every row of the output. *)
Lemma silver_rule raw s r' c p j :
  run raw = Some s ->
  In r' (rows (silver s)) ->
  In (c, p) validity_rules ->
  c <> MIN -> c <> HR ->
  col_index c (silver s) = Some j ->
  p (cell_at j r') = Some true.
Proof.
  intros H Hr' Hcp Hc1 Hc2 Hj.
  apply silver_origin in H
    as (dc & d0 & d2 & _ & _ & H2 & _ & Hcols0 & Hcols & Hrows).
  destruct (Hrows r' Hr') as (r & _ & Hok & Hrec & _).
  pose proof (recompute_spec _ _ H2) as (Hother & _).
  rewrite (col_index_columns _ _ _ Hcols), (Hother c Hc1 Hc2) in Hj.
  rewrite (Hrec c j Hc1 Hc2 Hj).
  unfold row_ok in Hok. rewrite forallb_forall in Hok.
  specialize (Hok _ Hcp). unfold rule_ok in Hok. cbn [fst snd] in Hok.
  rewrite <- (col_index_columns c _ _ Hcols0), Hj in Hok.
  destruct (p (cell_at j r)) as [[]|]; congruence.
Qed.

Lemma rule_seconds : In (SEC, is_positive) validity_rules.
Proof. now left. Qed.

Lemma rule_minutes : In (MIN, is_positive) validity_rules.
Proof. right. now left. Qed.

Lemma silver_seconds raw s r' js :
  run raw = Some s ->
  In r' (rows (silver s)) ->
  col_index SEC (silver s) = Some js ->
  exists q, num_value (cell_at js r') = Some q /\ (0 <? q)%float = true.
Proof.
  intros H Hr' Hjs. apply is_positive_true.
  refine (silver_rule _ _ _ _ _ _ H Hr' rule_seconds _ _ Hjs); discriminate.
Qed.

(** The frame the filter returns has the minutes where the normalized input
    has them. *)
Lemma minutes_index raw dc d0 :
  names dc = names (normalize_columns raw) ->
  columns d0 = columns dc ->
  col_index MIN d0 = col_index MIN (normalize_columns raw).
Proof.
  intros Hn Hcols. rewrite (col_index_columns _ _ _ Hcols).
  unfold col_index. now rewrite Hn.
Qed.

(** The minutes of the output.  Those the input had passed the filter and
    are positive.  Those the input did not have are the seconds over 60,
    as the machine divides: the seconds passed the filter, the quotient was
    never looked at. *)
Lemma silver_minutes raw s r' jm :
  run raw = Some s ->
  In r' (rows (silver s)) ->
  col_index MIN (silver s) = Some jm ->
  (has_col MIN (normalize_columns raw) = true ->
     col_index MIN (normalize_columns raw) = Some jm
     /\ exists q, num_value (cell_at jm r') = Some q /\ (0 <? q)%float = true)
  /\ (has_col MIN (normalize_columns raw) = false ->
        exists js qs,
          col_index SEC (silver s) = Some js
          /\ num_value (cell_at js r') = Some qs
          /\ (0 <? qs)%float = true
          /\ cell_at jm r' = Num (qs / 60)).
Proof.
  intros H Hr' Hjm.
  pose proof (fun js => silver_seconds raw s r' js H Hr') as Hsecs.
  apply silver_origin in H
    as (dc & d0 & d2 & _ & _ & H2 & Hn & Hcols0 & Hcols & Hrows).
  destruct (Hrows r' Hr') as (r & _ & Hok & Hsame & Hkept & Hderived & _).
  pose proof (recompute_spec _ _ H2) as (Hother & Hmin & _).
  pose proof (minutes_index raw dc d0 Hn Hcols0) as Hidx.
  rewrite (col_index_columns _ _ _ Hcols) in Hjm.
  unfold row_ok in Hok. rewrite forallb_forall in Hok.
  unfold has_col. rewrite <- Hidx.
  destruct (col_index MIN d0) as [j0|] eqn:E0.
  - split; [intros _|discriminate].
    rewrite (Hmin j0 eq_refl) in Hjm. injection Hjm as <-.
    split; [reflexivity|].
    rewrite (Hkept j0 eq_refl).
    specialize (Hok _ rule_minutes). unfold rule_ok in Hok. cbn [fst snd] in Hok.
    rewrite <- (col_index_columns _ _ _ Hcols0), E0 in Hok.
    apply is_positive_true.
    destruct (is_positive (cell_at j0 r)) as [[]|]; congruence.
  - split; [discriminate|intros _].
    destruct (Hderived jm eq_refl Hjm) as (js & Hjs & Hdiv).
    assert (Hjs' : col_index SEC (silver s) = Some js).
    { rewrite (col_index_columns _ _ _ Hcols). rewrite Hother; [assumption| |];
        discriminate. }
    destruct (Hsecs js Hjs') as (qs & Hqs & Hpos).
    exists js, qs. repeat (split; [assumption|]).
    rewrite (Hsame SEC js) in Hqs by (discriminate || assumption).
    exact (div_cell_value _ _ _ _ Hqs Hdiv).
Qed.

(** The minutes of the output hold a number in any case. *)
Lemma silver_minutes_value raw s r' jm :
  run raw = Some s ->
  In r' (rows (silver s)) ->
  col_index MIN (silver s) = Some jm ->
  exists qm, num_value (cell_at jm r') = Some qm.
Proof.
  intros H Hr' Hjm.
  destruct (silver_minutes raw s r' jm H Hr' Hjm) as [Hkept Hderived].
  destruct (has_col MIN (normalize_columns raw)).
  - destruct (Hkept eq_refl) as (_ & q & Hq & _). eauto.
  - destruct (Hderived eq_refl) as (js & qs & _ & _ & _ & ->). simpl. eauto.
Qed.

(** The hours of the output are the minutes of the output over 60, rounded
    to 6 places. *)
Lemma silver_hours raw s r' jm :
  run raw = Some s ->
  In r' (rows (silver s)) ->
  col_index MIN (silver s) = Some jm ->
  exists jh qm,
    col_index HR (silver s) = Some jh
    /\ num_value (cell_at jm r') = Some qm
    /\ cell_at jh r' = Num (round6 (qm / 60)).
Proof.
  intros H Hr' Hjm.
  destruct (silver_minutes_value _ _ _ _ H Hr' Hjm) as (qm & Hqm).
  apply silver_origin in H
    as (dc & d0 & d2 & _ & _ & H2 & _ & Hcols0 & Hcols & Hrows).
  destruct (Hrows r' Hr') as (r & _ & _ & _ & _ & _ & Hhours).
  rewrite (col_index_columns _ _ _ Hcols) in Hjm.
  destruct (Hhours jm Hjm) as (jh & v & Hjh & Hdiv & Hcell).
  exists jh, qm. rewrite (col_index_columns _ _ _ Hcols).
  repeat (split; [assumption|]).
  rewrite Hcell, (div_cell_value _ _ _ _ Hqm Hdiv). reflexivity.
Qed.

Lemma silver_seconds_minutes raw s js :
  run raw = Some s ->
  col_index SEC (silver s) = Some js ->
  exists jm, col_index MIN (silver s) = Some jm.
Proof.
  intros H Hjs.
  apply silver_origin in H as (dc & d0 & d2 & _ & _ & H2 & _ & _ & Hcols & _).
  pose proof (recompute_spec _ _ H2) as (Hother & _ & Hsec & _).
  rewrite (col_index_columns _ _ _ Hcols) in Hjs.
  rewrite Hother in Hjs by discriminate.
  destruct (Hsec js Hjs) as [jm Hjm]. exists jm.
  now rewrite (col_index_columns _ _ _ Hcols).
Qed.

(** With no minutes in the input, the minutes of the output are the
    seconds over 60 and the hours the seconds over 60, over 60 again,
    rounded. *)
Lemma silver_seconds_only raw s r' js :
  run raw = Some s ->
  In r' (rows (silver s)) ->
  has_col MIN (normalize_columns raw) = false ->
  col_index SEC (silver s) = Some js ->
  exists jm jh qs,
    col_index MIN (silver s) = Some jm
    /\ col_index HR (silver s) = Some jh
    /\ num_value (cell_at js r') = Some qs
    /\ (0 <? qs)%float = true
    /\ cell_at jm r' = Num (qs / 60)
    /\ cell_at jh r' = Num (round6 ((qs / 60) / 60)).
Proof.
  intros H Hr' Hnone Hjs.
  destruct (silver_seconds_minutes _ _ _ H Hjs) as [jm Hjm].
  destruct (silver_hours _ _ _ _ H Hr' Hjm) as (jh & qm & Hjh & Hqm & Hhr).
  destruct (silver_minutes _ _ _ _ H Hr' Hjm) as [_ Hderived].
  destruct (Hderived Hnone) as (js' & qs & Hjs' & Hqs & Hpos & Hmin).
  assert (js' = js) by congruence. subst js'.
  exists jm, jh, qs. repeat (split; [assumption|]).
  rewrite Hmin in Hqm. simpl in Hqm. injection Hqm as <-. exact Hhr.
Qed.

Lemma money_rule m :
  In m MONEY_COLS ->
  In (m, is_nonneg) validity_rules /\ m <> MIN /\ m <> HR.
Proof.
  unfold validity_rules, MONEY_COLS. cbn [map app In].
  intros [<-|[<-|[<-|[<-|[<-|[<-|[]]]]]]];
    (split; [repeat (first [left; reflexivity | right])
            | split; discriminate]).
Qed.

(** With neither seconds nor minutes, a row of the output is a row of the
    coerced frame. *)
Lemma silver_untouched raw s r :
  run raw = Some s ->
  In r (rows (silver s)) ->
  col_index SEC (silver s) = None ->
  col_index MIN (silver s) = None ->
  exists dc, coerce (normalize_columns raw) = Some dc
             /\ columns (silver s) = columns dc
             /\ In r (rows dc).
Proof.
  intros H Hr Hsec Hmin.
  apply main_stages in H as (dc & d0 & d2 & Hc & H0 & H2 & H3).
  exists dc. split; [assumption|].
  pose proof (clean_rows_spec _ _ H0) as [Hcols0 Hrows0].
  pose proof (recompute_spec _ _ H2) as (Hother & Hkeep & _ & Hsame & _).
  pose proof (drop_duplicates_by_key_rows _ _ _ _ H3) as [Hcols Hsub].
  rewrite (col_index_columns SEC _ _ Hcols) in Hsec.
  rewrite (col_index_columns MIN _ _ Hcols) in Hmin.
  rewrite Hother in Hsec by discriminate.
  assert (Hmin0 : col_index MIN d0 = None).
  { destruct (col_index MIN d0) as [jm|] eqn:E; [|reflexivity].
    rewrite (Hkeep jm eq_refl) in Hmin. discriminate. }
  rewrite (Hsame Hmin0 Hsec) in *. split; [congruence|].
  apply Hsub in Hr. rewrite Hrows0 in Hr. now apply filter_In in Hr as [Hr _].
Qed.

End PipelineFacts.

Section PipelineClaims.

Variable parse_number : string -> option float.
Variable str_of_number : float -> string.

Local Abbreviation run := (main parse_number str_of_number).

(** C1, as the code has it.  In every row of the pipeline's output: under
    each monetary column that is present the cell is missing or holds a
    value [>= 0]; under a present [trip_duration_sec] or
    [distance_traveled_km] it holds a value [> 0]; under a present
    [num_of_passengers] a value [>= 1]; under a present [kph] a value in
    (0, 160].  Under [trip_duration_min] it holds a value [> 0] when the
    input has a minutes column.  When the input has none, the minutes are
    derived after the filter and no rule sees them: they are the binary64
    quotient of the seconds, which are [> 0], by 60. *)
Theorem silver_invariants (raw : DataFrame) (s : Summary) (r : row) :
  run raw = Some s ->
  In r (rows (silver s)) ->
  (forall m j, In m MONEY_COLS -> col_index m (silver s) = Some j ->
     is_missing (cell_at j r) = true
     \/ exists q, num_value (cell_at j r) = Some q /\ (0 <=? q)%float = true)
  /\ (forall c j,
        In c ["trip_duration_sec"; "distance_traveled_km"] ->
        col_index c (silver s) = Some j ->
        exists q, num_value (cell_at j r) = Some q /\ (0 <? q)%float = true)
  /\ (forall j, col_index "trip_duration_min" (silver s) = Some j ->
        (has_col "trip_duration_min" (normalize_columns raw) = true ->
           exists q, num_value (cell_at j r) = Some q /\ (0 <? q)%float = true)
        /\ (has_col "trip_duration_min" (normalize_columns raw) = false ->
              exists js qs,
                col_index "trip_duration_sec" (silver s) = Some js
                /\ num_value (cell_at js r) = Some qs
                /\ (0 <? qs)%float = true
                /\ cell_at j r = Num (qs / 60)))
  /\ (forall j, col_index "num_of_passengers" (silver s) = Some j ->
        exists q, num_value (cell_at j r) = Some q /\ (1 <=? q)%float = true)
  /\ (forall j, col_index "kph" (silver s) = Some j ->
        exists q, num_value (cell_at j r) = Some q
                  /\ (0 <? q)%float = true /\ (q <=? 160)%float = true).
Proof.
  intros H Hr. split; [|split; [|split; [|split]]].
  - intros m j Hm Hj. destruct (money_rule m Hm) as (Hrule & Hc1 & Hc2).
    apply is_nonneg_true.
    exact (silver_rule _ _ _ _ _ _ _ _ H Hr Hrule Hc1 Hc2 Hj).
  - intros c j [<-|[<-|[]]] Hj.
    + exact (silver_seconds _ _ _ _ _ _ H Hr Hj).
    + apply is_positive_true.
      refine (silver_rule _ _ _ _ _ _ _ _ H Hr _ _ _ Hj);
        [right; right; now left | discriminate | discriminate].
  - intros j Hj.
    destruct (silver_minutes _ _ _ _ _ _ H Hr Hj) as [Hkept Hderived].
    split; [|exact Hderived].
    intros Hin. now destruct (Hkept Hin).
  - intros j Hj. apply at_least_one_true.
    refine (silver_rule _ _ _ _ _ _ _ _ H Hr _ _ _ Hj);
      [|discriminate|discriminate].
    unfold validity_rules, MONEY_COLS. cbn [map app].
    do 9 right. now left.
  - intros j Hj. apply sane_speed_true.
    refine (silver_rule _ _ _ _ _ _ _ _ H Hr _ _ _ Hj);
      [|discriminate|discriminate].
    unfold validity_rules, MONEY_COLS. cbn [map app].
    do 10 right. now left.
Qed.

(** C3, as the code has it.  In every row of the pipeline's output: when
    the minutes are present, [trip_duration_hr] is present and is
    round(trip_duration_min / 60, 6), computed in binary64 from the minutes
    of that row, whatever hours the input held.  When the input has no
    minutes column and the seconds are present, the minutes are the
    seconds over 60 and the hours are round((trip_duration_sec / 60) / 60,
    6): the seconds are divided by 60 twice, each quotient rounded to a
    float, and never by 3600. *)
Theorem silver_hours_derived (raw : DataFrame) (s : Summary) (r : row) :
  run raw = Some s ->
  In r (rows (silver s)) ->
  (forall jm, col_index "trip_duration_min" (silver s) = Some jm ->
     exists jh qm,
       col_index "trip_duration_hr" (silver s) = Some jh
       /\ num_value (cell_at jm r) = Some qm
       /\ cell_at jh r = Num (round6 (qm / 60)))
  /\ (forall js,
        has_col "trip_duration_min" (normalize_columns raw) = false ->
        col_index "trip_duration_sec" (silver s) = Some js ->
        exists jm jh qs,
          col_index "trip_duration_min" (silver s) = Some jm
          /\ col_index "trip_duration_hr" (silver s) = Some jh
          /\ num_value (cell_at js r) = Some qs
          /\ cell_at jm r = Num (qs / 60)
          /\ cell_at jh r = Num (round6 ((qs / 60) / 60))).
Proof.
  intros H Hr. split.
  - intros jm Hjm. exact (silver_hours _ _ _ _ _ _ H Hr Hjm).
  - intros js Hnone Hjs.
    destruct (silver_seconds_only _ _ _ _ _ _ H Hr Hnone Hjs)
      as (jm & jh & qs & Hjm & Hjh & Hqs & _ & Hmin & Hhr).
    exists jm, jh, qs. auto.
Qed.

(** C4, as the code has it.  In every row of the pipeline's output a
    present [trip_duration_sec] holds a value [> 0].  A present
    [trip_duration_min] holds a value [> 0] when the input has a minutes
    column, and is otherwise the binary64 quotient of the seconds by 60,
    which no rule sees.  [trip_duration_hr] is not filtered: whenever the
    seconds or the minutes are present it is recomputed as
    round(trip_duration_min / 60, 6) from the minutes of the row; when
    neither is present the row is a row of the coerced input as it stood,
    its hours included. *)
Theorem silver_durations (raw : DataFrame) (s : Summary) (r : row) :
  run raw = Some s ->
  In r (rows (silver s)) ->
  (forall js, col_index "trip_duration_sec" (silver s) = Some js ->
     exists q, num_value (cell_at js r) = Some q /\ (0 <? q)%float = true)
  /\ (forall jm, col_index "trip_duration_min" (silver s) = Some jm ->
        (has_col "trip_duration_min" (normalize_columns raw) = true ->
           exists q, num_value (cell_at jm r) = Some q /\ (0 <? q)%float = true)
        /\ (has_col "trip_duration_min" (normalize_columns raw) = false ->
              exists js qs,
                col_index "trip_duration_sec" (silver s) = Some js
                /\ num_value (cell_at js r) = Some qs
                /\ cell_at jm r = Num (qs / 60)))
  /\ (forall c j, In c ["trip_duration_sec"; "trip_duration_min"] ->
        col_index c (silver s) = Some j ->
        exists jm jh qm,
          col_index "trip_duration_min" (silver s) = Some jm
          /\ col_index "trip_duration_hr" (silver s) = Some jh
          /\ num_value (cell_at jm r) = Some qm
          /\ cell_at jh r = Num (round6 (qm / 60)))
  /\ (col_index "trip_duration_sec" (silver s) = None ->
      col_index "trip_duration_min" (silver s) = None ->
      exists dc, coerce_types parse_number str_of_number (normalize_columns raw) = Some dc
                 /\ columns (silver s) = columns dc
                 /\ In r (rows dc)).
Proof.
  intros H Hr. split; [|split; [|split]].
  - intros js Hjs. exact (silver_seconds _ _ _ _ _ _ H Hr Hjs).
  - intros jm Hjm.
    destruct (silver_minutes _ _ _ _ _ _ H Hr Hjm) as [Hkept Hderived].
    split.
    + intros Hin. now destruct (Hkept Hin).
    + intros Hout. destruct (Hderived Hout) as (js & qs & Hjs & Hqs & _ & Hmin).
      eauto.
  - assert (Hmin : forall jm, col_index "trip_duration_min" (silver s) = Some jm ->
              exists jm' jh qm,
                col_index "trip_duration_min" (silver s) = Some jm'
                /\ col_index "trip_duration_hr" (silver s) = Some jh
                /\ num_value (cell_at jm' r) = Some qm
                /\ cell_at jh r = Num (round6 (qm / 60))).
    { intros jm Hjm.
      destruct (silver_hours _ _ _ _ _ _ H Hr Hjm) as (jh & qm & Hjh & Hqm & Hhr).
      exists jm, jh, qm. auto. }
    intros c j [<-|[<-|[]]] Hj.
    + destruct (silver_seconds_minutes _ _ _ _ _ H Hj) as [jm Hjm].
      exact (Hmin jm Hjm).
    + exact (Hmin j Hj).
  - intros Hsec Hmin.
    exact (silver_untouched _ _ _ _ _ H Hr Hsec Hmin).
Qed.

End PipelineClaims.

(** ** The pipeline returns *)

Section PipelineTotal.

Variable parse_number : string -> option float.
Variable str_of_number : float -> string.

Lemma coerce_types_numeric_under df dc :
  coerce_types parse_number str_of_number df = Some dc ->
  numeric_under NUM_COLS dc.
Proof.
  intros H. apply coerce_types_cells in H as [Hn Hrows].
  intros r' c j Hr' Hc Hj.
  destruct (Forall2_In_right _ _ _ _ Hrows Hr') as [r [_ Hcells]].
  unfold col_index in Hj. rewrite Hn in Hj.
  rewrite (Hcells j). unfold coerced_cell.
  rewrite (targets_In NUM_COLS df c j Hc Hj).
  apply to_numeric_cell_numeric.
Qed.

Lemma div_cell_numeric k x :
  is_numeric x = true -> exists v, div_cell k x = Some v /\ is_numeric v = true.
Proof.
  destruct x as [q|b|s]; simpl; intros H; try discriminate; eauto.
Qed.

Lemma assign_column_total c value d :
  (forall r, In r (rows d) -> value r <> None) ->
  exists d', assign_column c value d = Some d'.
Proof.
  intros H. unfold assign_column.
  assert (Hm : forall j, exists rs,
             Exc.mapM (fun r => v <- value r ;; Some (set_cell j v r)) (rows d) = Some rs).
  { intros j. apply mapM_total, Forall_forall. intros r Hr.
    specialize (H r Hr). destruct (value r); [discriminate | congruence]. }
  destruct (col_index c d) as [j|].
  - destruct (Hm j) as [rs ->]. simpl. eauto.
  - destruct (Hm (List.length (columns d))) as [rs ->]. simpl. eauto.
Qed.

Lemma hours_from_minutes_total jm r :
  is_numeric (cell_at jm r) = true -> hours_from_minutes jm r <> None.
Proof.
  intros H. unfold hours_from_minutes.
  destruct (div_cell_numeric 60 _ H) as [v [-> _]]. discriminate.
Qed.

(** [recompute_duration_fields] returns on every frame whose seconds and
    minutes hold no text. *)
Lemma recompute_total d :
  numeric_under ["trip_duration_sec"; "trip_duration_min"] d ->
  exists d', recompute_duration_fields d = Some d'.
Proof.
  intros Hnum. unfold recompute_duration_fields.
  destruct (col_index "trip_duration_min" d) as [jm|] eqn:Em.
  - cbn [Exc.bind]. rewrite Em. apply assign_column_total.
    intros r Hr. apply hours_from_minutes_total.
    apply (Hnum r "trip_duration_min" jm Hr); [right; now left | assumption].
  - destruct (col_index "trip_duration_sec" d) as [js|] eqn:Es.
    + destruct (assign_column_total "trip_duration_min" (minutes_from_seconds js) d)
        as [d1 E1].
      { intros r Hr. unfold minutes_from_seconds.
        destruct (div_cell_numeric 60 (cell_at js r)) as [v [-> _]]; [|discriminate].
        apply (Hnum r "trip_duration_sec" js Hr); [now left | assumption]. }
      rewrite E1. cbn [Exc.bind].
      apply assign_column_spec in E1 as (jm & Hjm & _ & _ & Hrows).
      rewrite Hjm. apply assign_column_total.
      intros r1 Hr1. apply hours_from_minutes_total.
      destruct (Forall2_In_right _ _ _ _ Hrows Hr1) as [r [Hr [[v [Hv Hcell]] _]]].
      rewrite Hcell. unfold minutes_from_seconds in Hv.
      destruct (div_cell_numeric 60 (cell_at js r)) as [v' [Hv' Hnumv]].
      { apply (Hnum r "trip_duration_sec" js Hr); [now left | assumption]. }
      congruence.
    + cbn [Exc.bind]. rewrite Em, Es. eauto.
Qed.

(** X17.  The pipeline returns exactly when, once the labels are normalized,
    no label of the registry is carried by two columns: text that does not
    parse, missing values and an empty table never stop it. *)
Theorem main_defined raw :
  labels_unique COERCED (normalize_columns raw) = true <->
  exists s, main parse_number str_of_number raw = Some s.
Proof.
  split.
  - intros Hu.
    apply (coerce_types_defined parse_number str_of_number) in Hu as [dc Hc].
    pose proof (coerce_types_numeric_under _ _ Hc) as Hnum.
    destruct (clean_rows_total dc Hnum) as [d0 H0].
    pose proof (clean_rows_spec _ _ H0) as [Hcols Hrows].
    destruct (recompute_total d0) as [d2 H2].
    { intros r c j Hr Hin Hj. rewrite Hrows in Hr.
      apply filter_In in Hr as [Hr _].
      apply (Hnum r c j Hr).
      - destruct Hin as [<-|[<-|[]]]; apply In_by_eqb; reflexivity.
      - now rewrite <- (col_index_columns c _ _ Hcols). }
    unfold main, staged. cbn [Exc.bind]. rewrite Hc. cbn [Exc.bind].
    rewrite H0. cbn [Exc.bind]. rewrite H2. cbn [Exc.bind].
    destruct (drop_duplicates_by_key d2) as [[out dupes] key]. eauto.
  - intros [s H]. apply main_stages in H as (dc & _ & _ & Hc & _).
    apply (coerce_types_defined parse_number str_of_number). eauto.
Qed.

End PipelineTotal.

(** * The samples *)

Local Abbreviation run_sample := (main read_integer no_number_text).
Local Abbreviation coerce_sample := (coerce_types read_integer no_number_text).

(** The summary of the six trips: two rows are written, one duplicate was
    removed, and the first trip has 0.033333 hours and its surge flag set. *)
Example main_sample :
  run_sample sample_raw = Some sample_summary
  /\ n_in sample_summary = 6
  /\ after_cleaning sample_summary = 2
  /\ dup_count sample_summary = 1
  /\ key_used sample_summary
     = ["trip_duration_sec"; "distance_traveled_km"; "total_fare_new";
        "num_of_passengers"; "tip"; "surge_applied"]
  /\ sample_trip
     = [Num 120; Num 1; Num 5; Num 1; Num 0; Num 30; Bool true; Str "ann";
        Num 2; Num 0.033333].
Proof. vm_compute. repeat split. Qed.

Example coerce_sample_stages :
  coerce_sample (normalize_columns sample_raw) = Some sample_coerced
  /\ clean_rows sample_coerced = Some sample_cleaned
  /\ recompute_duration_fields sample_cleaned = Some sample_staged.
Proof. vm_compute. repeat split. Qed.

(** Numbers compare in a key as they do on the machine, but for nan, which
    equals itself there. *)
Example float_same_sample :
  float_same 0 (-0) = (0 =? -0)%float
  /\ float_same 1 2 = (1 =? 2)%float
  /\ float_same 0.1 0.1 = (0.1 =? 0.1)%float
  /\ float_same infinity infinity = (infinity =? infinity)%float
  /\ float_same nan 0 = (nan =? 0)%float
  /\ float_same nan nan = true
  /\ (nan =? nan)%float = false.
Proof. repeat split; vm_compute; reflexivity. Qed.

(** Two columns that normalize to one label of the registry stop the
    pipeline in [coerce_types]. *)
Example main_repeated_label :
  run_sample (mkDF [("Tip", DNumeric); ("tip ", DNumeric)] [[Num 1; Num 2]]) = None.
Proof. reflexivity. Qed.

(** Text under a rule's column stops [clean_rows] when it is called ahead of
    [coerce_types]. *)
Example clean_rows_text :
  clean_rows (mkDF [("kph", DObject)] [[Str "30"]]) = None.
Proof. reflexivity. Qed.

Lemma normalize_columns_idempotent_witness :
  forallb canonical (names (normalize_columns sample_raw)) = true
  /\ normalize_columns (normalize_columns sample_raw) = normalize_columns sample_raw.
Proof.
  split; [reflexivity|].
  apply (proj2 (proj2 (normalize_columns_idempotent (normalize_columns sample_raw)))).
  reflexivity.
Defined.

Lemma coerce_types_numeric_witness :
  labels_unique COERCED (normalize_columns sample_raw) = true
  /\ exists d, coerce_sample (normalize_columns sample_raw) = Some d
               /\ names d = names (normalize_columns sample_raw).
Proof.
  split; [reflexivity|].
  destruct (coerce_types_numeric read_integer no_number_text
              (normalize_columns sample_raw) eq_refl) as (d & Hd & Hn & _).
  exists d. split; assumption.
Defined.

Lemma coerce_types_surge_text_witness :
  coerce_sample sample_surge_str
  = Some (mkDF [("surge_applied", DBool); ("tip", DNumeric)]
               [ [Bool true; Num 1]; [Bool true; Num 1]; [Bool true; Num 2];
                 [Bool true; Num 3] ])
  /\ col_index "surge_applied" sample_surge_str = Some 0
  /\ dtype_at 0 sample_surge_str = DStr
  /\ Forall2 (fun r r' =>
                forall s, cell_at 0 r = Str s ->
                  cell_at 0 r' = Bool (negb (String.eqb s "")))
             (rows sample_surge_str)
             [ [Bool true; Num 1]; [Bool true; Num 1]; [Bool true; Num 2];
               [Bool true; Num 3] ].
Proof.
  assert (H : coerce_sample sample_surge_str
              = Some (mkDF [("surge_applied", DBool); ("tip", DNumeric)]
                           [ [Bool true; Num 1]; [Bool true; Num 1];
                             [Bool true; Num 2]; [Bool true; Num 3] ]))
    by (vm_compute; reflexivity).
  split; [exact H|]. split; [reflexivity|]. split; [reflexivity|].
  eapply Forall2_impl;
    [|exact (proj2 (coerce_types_surge_text read_integer no_number_text
                      sample_surge_str _ 0 H eq_refl) eq_refl)].
  intros r r' [Htext _]. exact Htext.
Defined.

(** The flag ["false"] of a CSV.  Read into a column of dtype [object] it
    becomes false, as do ["0"] and ["maybe"].  Read into a column of the
    string dtype it becomes true, and so does every other flag. *)
Lemma surge_false_reads_true :
  option_map rows (coerce_sample sample_surge_object)
  = Some [ [Bool true; Num 1]; [Bool false; Num 1]; [Bool false; Num 2];
           [Bool false; Num 3] ]
  /\ option_map rows (coerce_sample sample_surge_str)
     = Some [ [Bool true; Num 1]; [Bool true; Num 1]; [Bool true; Num 2];
              [Bool true; Num 3] ]
  /\ nth 1 (rows sample_surge_str) [] = [Str "false"; Num 1].
Proof. repeat split; vm_compute; reflexivity. Qed.

Lemma coerce_types_surge_truthiness_witness :
  coerce_sample sample_flags
  = Some (mkDF [("surge_applied", DBool); ("tip", DNumeric)]
               [[Bool true; Num 2]; [Bool false; NaN]; [Bool true; NaN]])
  /\ col_index "surge_applied" sample_flags = Some 0
  /\ dtype_at 0 sample_flags <> DObject
  /\ surge_text no_number_text NaN = Bool false.
Proof.
  assert (H : coerce_sample sample_flags
              = Some (mkDF [("surge_applied", DBool); ("tip", DNumeric)]
                           [[Bool true; Num 2]; [Bool false; NaN]; [Bool true; NaN]]))
    by (vm_compute; reflexivity).
  assert (Ht : dtype_at 0 sample_flags <> DObject) by (simpl; discriminate).
  split; [exact H|]. split; [reflexivity|]. split; [exact Ht|].
  exact (proj1 (proj2 (coerce_types_surge_truthiness read_integer no_number_text
                         sample_flags _ 0 H eq_refl Ht))).
Defined.

Lemma clean_rows_missing_as_zero_witness :
  clean_rows sample_coerced = Some sample_cleaned
  /\ (forall cp, In cp validity_rules -> snd cp NaN = snd cp (Num 0))
  /\ (forall r j, cell_at j r = NaN ->
        row_ok sample_coerced (set_cell j (Num 0) r) = row_ok sample_coerced r).
Proof.
  assert (H : clean_rows sample_coerced = Some sample_cleaned)
    by (vm_compute; reflexivity).
  split; [exact H|].
  destruct (clean_rows_missing_as_zero sample_coerced sample_cleaned H)
    as (Hzero & Hrow & _).
  split; assumption.
Defined.

(** The trip whose fare could not be read is kept, the fare still missing. *)
Example missing_fare_kept :
  In [Num 300; Num 2.5; NaN; Num 2; NaN; Num 30; Bool false; Str "eve"]
     (rows sample_cleaned).
Proof. right. right. left. reflexivity. Qed.

Lemma clean_rows_skips_absent_witness :
  clean_rows sample_coerced = Some sample_cleaned
  /\ forall d', clean_rows (drop_column "kph" sample_coerced) = Some d' ->
       List.length (rows sample_cleaned) <= List.length (rows d').
Proof.
  assert (H : clean_rows sample_coerced = Some sample_cleaned)
    by (vm_compute; reflexivity).
  split; [exact H|].
  destruct (clean_rows_skips_absent sample_coerced sample_cleaned H)
    as (_ & _ & Hdrop & _).
  intros d' Hd'. exact (proj2 (Hdrop "kph" d' Hd')).
Defined.

(** Without the speed column the trip that was too fast stays. *)
Example without_speed :
  option_map (fun d => List.length (rows d)) (clean_rows sample_coerced) = Some 3
  /\ option_map (fun d => List.length (rows d))
                (clean_rows (drop_column "kph" sample_coerced)) = Some 4.
Proof. vm_compute. split; reflexivity. Qed.

Lemma drop_duplicates_by_key_correct_witness :
  key_columns sample_staged <> []
  /\ let '(out, dupes, key) := drop_duplicates_by_key sample_staged in
     dupes = List.length (rows sample_staged) - List.length (rows out)
     /\ forall i j, i < j -> j < List.length (rows out) ->
          exists c k, In c key /\ col_index c out = Some k
                      /\ cell_eqb (cell_at k (nth j (rows out) []))
                                  (cell_at k (nth i (rows out) [])) = false.
Proof.
  assert (Hkey : key_columns sample_staged <> []) by (vm_compute; discriminate).
  split; [exact Hkey|].
  pose proof (drop_duplicates_by_key_correct sample_staged) as H.
  destruct (drop_duplicates_by_key sample_staged) as [[out dupes] key] eqn:E.
  destruct H as (Hk & _ & Hcount & _ & Hpairs & _).
  split; [exact Hcount|].
  apply Hpairs. rewrite Hk. exact Hkey.
Defined.

(** With no composite-key column nothing is removed, not even a repeated
    row. *)
Example no_key_no_removal :
  drop_duplicates_by_key sample_plain = (sample_plain, 0, []).
Proof. reflexivity. Qed.

Lemma silver_invariants_witness :
  run_sample sample_raw = Some sample_summary
  /\ In sample_trip (rows (silver sample_summary))
  /\ (exists q, num_value (cell_at 5 sample_trip) = Some q
                /\ (0 <? q)%float = true /\ (q <=? 160)%float = true).
Proof.
  assert (H : run_sample sample_raw = Some sample_summary)
    by (vm_compute; reflexivity).
  assert (Hr : In sample_trip (rows (silver sample_summary)))
    by (left; reflexivity).
  split; [exact H|]. split; [exact Hr|].
  destruct (silver_invariants read_integer no_number_text
              sample_raw sample_summary sample_trip H Hr) as (_ & _ & _ & _ & Hkph).
  exact (Hkph 5 eq_refl).
Defined.

(** The derived minutes are not filtered.  The shortest positive duration
    a float can hold passes the rule on the seconds; the minutes derived
    from it are 0. *)
Lemma minutes_not_positive :
  exists s r js jm,
    run_sample sample_instant = Some s
    /\ In r (rows (silver s))
    /\ col_index "trip_duration_sec" (silver s) = Some js
    /\ cell_at js r = Num 0x1p-1074
    /\ (0 <? 0x1p-1074)%float = true
    /\ col_index "trip_duration_min" (silver s) = Some jm
    /\ cell_at jm r = Num 0
    /\ (0 <? 0)%float = false.
Proof.
  eexists; exists [Num 0x1p-1074; Num 0; Num 0], 0, 1.
  split; [vm_compute; reflexivity|].
  split; [left; reflexivity|].
  repeat split.
Qed.

Lemma silver_hours_derived_witness :
  run_sample sample_raw = Some sample_summary
  /\ In sample_trip (rows (silver sample_summary))
  /\ has_col "trip_duration_min" (normalize_columns sample_raw) = false
  /\ col_index "trip_duration_sec" (silver sample_summary) = Some 0
  /\ (exists jm jh qs,
        col_index "trip_duration_min" (silver sample_summary) = Some jm
        /\ col_index "trip_duration_hr" (silver sample_summary) = Some jh
        /\ num_value (cell_at 0 sample_trip) = Some qs
        /\ cell_at jm sample_trip = Num (qs / 60)
        /\ cell_at jh sample_trip = Num (round6 ((qs / 60) / 60))).
Proof.
  assert (H : run_sample sample_raw = Some sample_summary)
    by (vm_compute; reflexivity).
  assert (Hr : In sample_trip (rows (silver sample_summary)))
    by (left; reflexivity).
  split; [exact H|]. split; [exact Hr|]. split; [reflexivity|]. split; [reflexivity|].
  destruct (silver_hours_derived read_integer no_number_text
              sample_raw sample_summary sample_trip H Hr) as (_ & Hsec).
  exact (Hsec 0 eq_refl eq_refl).
Defined.

(** The hours are not the seconds over 3600.  A trip of 10.125 seconds
    leaves the pipeline with 0.002813 hours, the rounding of
    (10.125 / 60) / 60; round(10.125 / 3600, 6) is 0.002812. *)
Lemma hours_not_seconds_over_3600 :
  exists s r js jh,
    run_sample sample_tie = Some s
    /\ In r (rows (silver s))
    /\ has_col "trip_duration_min" (normalize_columns sample_tie) = false
    /\ col_index "trip_duration_sec" (silver s) = Some js
    /\ cell_at js r = Num 10.125
    /\ col_index "trip_duration_hr" (silver s) = Some jh
    /\ cell_at jh r = Num 0.002813
    /\ round6 (10.125 / 3600) = 0.002812%float
    /\ (0.002812 =? 0.002813)%float = false.
Proof.
  eexists; exists [Num 10.125; Num (10.125 / 60); Num 0.002813], 0, 2.
  split; [vm_compute; reflexivity|].
  split; [left; reflexivity|].
  repeat split.
Qed.

Lemma silver_durations_witness :
  run_sample sample_raw = Some sample_summary
  /\ In sample_trip (rows (silver sample_summary))
  /\ (exists q, num_value (cell_at 0 sample_trip) = Some q /\ (0 <? q)%float = true).
Proof.
  assert (H : run_sample sample_raw = Some sample_summary)
    by (vm_compute; reflexivity).
  assert (Hr : In sample_trip (rows (silver sample_summary)))
    by (left; reflexivity).
  split; [exact H|]. split; [exact Hr|].
  destruct (silver_durations read_integer no_number_text
              sample_raw sample_summary sample_trip H Hr) as (Hpos & _).
  exact (Hpos 0 eq_refl).
Defined.

(** The hours are not filtered.  A frame with hours only leaves the pipeline
    with its negative and its zero hours; and minutes that pass the filter
    can be so short that the recomputed hours round to 0. *)
Lemma hours_not_positive :
  (exists s r j q,
     run_sample sample_hours = Some s
     /\ In r (rows (silver s))
     /\ col_index "trip_duration_hr" (silver s) = Some j
     /\ num_value (cell_at j r) = Some q
     /\ (q <=? 0)%float = true)
  /\ (exists s r j q,
        run_sample sample_minutes = Some s
        /\ In r (rows (silver s))
        /\ col_index "trip_duration_hr" (silver s) = Some j
        /\ num_value (cell_at j r) = Some q
        /\ (q <=? 0)%float = true).
Proof.
  split.
  - eexists; exists [Num (-5)], 0, (-5)%float.
    split; [vm_compute; reflexivity|].
    split; [left; reflexivity|].
    repeat split.
  - eexists; exists [Num 0.00002; Num 0], 1, 0%float.
    split; [vm_compute; reflexivity|].
    split; [right; left; reflexivity|].
    repeat split.
Qed.

(** * Further properties of the stages *)

(** ** clean_rows *)

Section FilteringMore.

Lemma mapM_all_true {A} (p : A -> option bool) l :
  (forall a, In a l -> p a = Some true) ->
  exists mask, Exc.mapM p l = Some mask /\ select mask l = l.
Proof.
  induction l as [|a t IH]; simpl; intros H.
  - exists []. auto.
  - rewrite (H a (or_introl eq_refl)).
    destruct IH as [mask [-> Hsel]]; [intros; apply H; auto|].
    exists (true :: mask). simpl. now rewrite Hsel.
Qed.

Lemma apply_rule_all_pass c p df :
  (forall r, In r (rows df) -> rule_ok df r (c, p) = true) ->
  apply_rule c p df = Some df.
Proof.
  intros H. unfold apply_rule.
  destruct (col_index c df) as [j|] eqn:Ej; [|reflexivity].
  destruct (mapM_all_true (fun r => p (cell_at j r)) (rows df)) as [mask [-> Hsel]].
  - intros r Hr. specialize (H r Hr). unfold rule_ok in H. cbn [fst snd] in H.
    rewrite Ej in H. destruct (p (cell_at j r)) as [[]|]; congruence.
  - cbn [Exc.bind]. rewrite Hsel. now destruct df.
Qed.

Lemma apply_rules_all_pass rules df :
  (forall r cp, In r (rows df) -> In cp rules -> rule_ok df r cp = true) ->
  Exc.foldM (fun cp => apply_rule (fst cp) (snd cp)) rules df = Some df.
Proof.
  induction rules as [|[c p] rules IH]; intros H; cbn [Exc.foldM fst snd].
  - reflexivity.
  - rewrite apply_rule_all_pass.
    + cbn [Exc.bind]. apply IH. intros r cp Hr Hcp. apply H; [assumption|now right].
    + intros r Hr. apply H; [assumption|now left].
Qed.

(** X1.  When [clean_rows] returns, the header is untouched and the rows
    returned are exactly the rows that pass every rule whose column is
    present, in the order they had: nothing is reordered, nothing is
    rewritten, and no row is added. *)
Theorem clean_rows_keeps_order (d df : DataFrame) :
  clean_rows d = Some df ->
  columns df = columns d
  /\ rows df = filter (row_ok d) (rows d)
  /\ List.length (rows df) <= List.length (rows d)
  /\ (forall r, In r (rows df) <-> In r (rows d) /\ row_ok d r = true).
Proof.
  intros H. apply clean_rows_spec in H as [Hc Hr].
  split; [assumption|]. split; [assumption|]. split.
  - rewrite Hr. pose proof (filter_length (row_ok d) (rows d)). lia.
  - intros r. rewrite Hr. apply filter_In.
Qed.

(** X2.  Filtering twice is filtering once: on its own result [clean_rows]
    returns, and returns that very frame. *)
Theorem clean_rows_idempotent (d df : DataFrame) :
  clean_rows d = Some df -> clean_rows df = Some df.
Proof.
  intros H. apply clean_rows_spec in H as [Hc Hr].
  rewrite clean_rows_loop. apply apply_rules_all_pass.
  intros r cp Hin Hcp. rewrite Hr in Hin. apply filter_In in Hin as [_ Hok].
  rewrite (rule_ok_columns d df r cp Hc).
  unfold row_ok in Hok. rewrite forallb_forall in Hok. now apply Hok.
Qed.


End FilteringMore.

(** ** recompute_duration_fields *)

Section RecomputationMore.

Local Abbreviation MIN := "trip_duration_min".
Local Abbreviation SEC := "trip_duration_sec".
Local Abbreviation HR := "trip_duration_hr".

Lemma set_cell_length j v r : j < List.length (set_cell j v r).
Proof.
  revert r. induction j as [|j IH]; intros [|x t]; simpl; try lia.
  - specialize (IH []). lia.
  - specialize (IH t). lia.
Qed.

Lemma set_cell_same j r : j < List.length r -> set_cell j (cell_at j r) r = r.
Proof.
  unfold cell_at. revert r. induction j as [|j IH]; intros [|x t] H; simpl in *;
    try lia; [reflexivity|].
  f_equal. apply IH. lia.
Qed.

Lemma set_dtype_same j t (l : list (string * dtype)) :
  j < List.length l -> snd (nth j l (EmptyString, DObject)) = t -> set_dtype j t l = l.
Proof.
  revert j. induction l as [|[c u] l IH]; intros [|j] Hj Ht; simpl in *; try lia.
  - now subst.
  - f_equal. apply IH; [lia | assumption].
Qed.

Lemma dtype_set_dtype j t (l : list (string * dtype)) :
  j < List.length l -> snd (nth j (set_dtype j t l) (EmptyString, DObject)) = t.
Proof.
  revert j. induction l as [|[c u] l IH]; intros [|j] Hj; simpl in *; try lia.
  - reflexivity.
  - apply IH. lia.
Qed.

Lemma set_dtype_length j t (l : list (string * dtype)) :
  List.length (set_dtype j t l) = List.length l.
Proof.
  revert j. induction l as [|[c u] l IH]; intros [|j]; simpl; auto.
Qed.

Lemma mapM_fixed {A} (f : A -> option A) l :
  (forall a, In a l -> f a = Some a) -> Exc.mapM f l = Some l.
Proof.
  induction l as [|a t IH]; simpl; intros H; [reflexivity|].
  rewrite (H a (or_introl eq_refl)), IH; auto.
Qed.

(** The frame an assignment returns, cell by cell and label by label. *)
Lemma assign_column_shape c value d d' :
  assign_column c value d = Some d' ->
  exists j,
    col_index c d' = Some j
    /\ j < List.length (columns d')
    /\ dtype_at j d' = DNumeric
    /\ (names d' = names d
        \/ (col_index c d = None /\ names d' = (names d ++ [c])%list))
    /\ Forall2 (fun r r' => exists v, value r = Some v /\ r' = set_cell j v r)
               (rows d) (rows d').
Proof.
  intros H.
  destruct (assign_column_spec _ _ _ _ H) as (j0 & Hj0 & _).
  revert H. unfold assign_column.
  assert (Hrows : forall j rs,
    Exc.mapM (fun r => v <- value r ;; Some (set_cell j v r)) (rows d) = Some rs ->
    Forall2 (fun r r' => exists v, value r = Some v /\ r' = set_cell j v r) (rows d) rs).
  { intros j rs E. apply mapM_Some in E.
    eapply Forall2_impl; [|exact E]. intros r r' Hr. cbn beta in Hr.
    destruct (value r) as [v|]; [|discriminate]. simpl in Hr.
    injection Hr as <-. eauto. }
  destruct (col_index c d) as [j|] eqn:Ej.
  - destruct (Exc.mapM _ (rows d)) as [rs|] eqn:E; [|discriminate].
    cbn [Exc.bind]. intros [= <-].
    pose proof (index_of_lt _ _ _ Ej) as Hlt.
    unfold names in Hlt. rewrite length_map in Hlt.
    exists j. unfold col_index, names, dtype_at in *. cbn [columns rows].
    rewrite names_set_dtype, set_dtype_length.
    split; [assumption|]. split; [assumption|].
    split; [now apply dtype_set_dtype|]. split; [now left|]. now apply Hrows.
  - destruct (Exc.mapM _ (rows d)) as [rs|] eqn:E; [|discriminate].
    cbn [Exc.bind]. intros [= <-].
    exists (List.length (columns d)).
    assert (Hlen : List.length (columns d) = List.length (names d))
      by (unfold names; now rewrite length_map).
    unfold col_index, names, dtype_at in *. cbn [columns rows].
    rewrite map_app. cbn [map fst]. split.
    + rewrite Hlen. now apply index_of_app_new.
    + split; [rewrite length_app; simpl; lia|].
      split; [now rewrite nth_middle|].
      split; [right; auto|]. now apply Hrows.
Qed.

(** Assigning to a column the cells it already holds changes nothing. *)
Lemma assign_column_fixed c value d j :
  col_index c d = Some j ->
  dtype_at j d = DNumeric ->
  (forall r, In r (rows d) -> value r = Some (cell_at j r) /\ j < List.length r) ->
  assign_column c value d = Some d.
Proof.
  intros Hj Ht Hrows. unfold assign_column. rewrite Hj.
  rewrite (mapM_fixed (fun r => v <- value r ;; Some (set_cell j v r))).
  - cbn [Exc.bind]. rewrite set_dtype_same; [now destruct d| |exact Ht].
    apply index_of_lt in Hj. unfold names in Hj. now rewrite length_map in Hj.
  - intros r Hr. destruct (Hrows r Hr) as [-> Hlt]. cbn [Exc.bind].
    now rewrite set_cell_same.
Qed.

Lemma hours_fixed d1 d' jm :
  col_index MIN d1 = Some jm ->
  assign_column HR (hours_from_minutes jm) d1 = Some d' ->
  recompute_duration_fields d' = Some d'.
Proof.
  intros Hm H.
  destruct (assign_column_spec _ _ _ _ H) as (jh0 & Hjh0 & _ & Hother & _).
  destruct (assign_column_shape _ _ _ _ H) as (jh & Hjh & _ & Hdt & _ & Hrows).
  assert (Hm' : col_index MIN d' = Some jm)
    by (rewrite Hother; [assumption | discriminate]).
  assert (Hne : jh <> jm).
  { intros ->. pose proof (index_of_inj _ _ _ _ Hjh Hm'). discriminate. }
  unfold recompute_duration_fields. rewrite Hm'. cbn [Exc.bind]. rewrite Hm'.
  apply (assign_column_fixed HR _ d' jh Hjh Hdt).
  intros r' Hr'.
  destruct (Forall2_In_right _ _ _ _ Hrows Hr') as (r & _ & v & Hv & ->).
  split; [|apply set_cell_length].
  unfold hours_from_minutes in *.
  rewrite cell_at_set_cell_other by assumption.
  now rewrite cell_at_set_cell_same.
Qed.

(** X4.  Recomputing twice is recomputing once: on its own result
    [recompute_duration_fields] returns that very frame, minutes and hours
    included. *)
Theorem recompute_idempotent (d d' : DataFrame) :
  recompute_duration_fields d = Some d' ->
  recompute_duration_fields d' = Some d'.
Proof.
  intros H. pose proof H as H0. revert H. unfold recompute_duration_fields at 1.
  destruct (col_index MIN d) as [jm|] eqn:Em.
  - cbn [Exc.bind]. rewrite Em. now apply hours_fixed.
  - destruct (col_index SEC d) as [js|] eqn:Es.
    + destruct (assign_column MIN (minutes_from_seconds js) d) as [d1|] eqn:E1;
        [|discriminate].
      cbn [Exc.bind].
      destruct (assign_column_spec _ _ _ _ E1) as (jm & Hjm & _).
      rewrite Hjm. now apply hours_fixed.
    + cbn [Exc.bind]. rewrite Em, Es. intros [= <-]. exact H0.
Qed.

Lemma assign_column_names c value d d' :
  assign_column c value d = Some d' ->
  List.length (rows d') = List.length (rows d)
  /\ (names d' = names d
      \/ (col_index c d = None /\ names d' = (names d ++ [c])%list)).
Proof.
  intros H. destruct (assign_column_shape _ _ _ _ H) as (j & _ & _ & _ & Hn & Hrows).
  split; [|assumption]. symmetry. eapply Forall2_length; eauto.
Qed.

(** The header after the recomputation: the labels there were, then the
    minutes and the hours where they are new. *)
Lemma recompute_names d d' :
  recompute_duration_fields d = Some d' ->
  exists extra,
    names d' = (names d ++ extra)%list
    /\ forall c, In c extra -> (c = MIN \/ c = HR) /\ col_index c d = None.
Proof.
  unfold recompute_duration_fields.
  - destruct (col_index MIN d) as [jm|] eqn:Em.
    + cbn [Exc.bind]. rewrite Em. intros H.
      apply assign_column_names in H as [_ [Hn|[Hnone Hn]]].
      * exists []. rewrite app_nil_r. split; [assumption | intros ? []].
      * exists [HR]. split; [assumption|].
        intros c [<-|[]]. split; [now right | assumption].
    + destruct (col_index SEC d) as [js|] eqn:Es.
      * destruct (assign_column MIN (minutes_from_seconds js) d) as [d1|] eqn:E1;
          [|discriminate].
        cbn [Exc.bind].
        destruct (assign_column_spec _ _ _ _ E1) as (jm & Hjm & _ & Hother1 & _).
        rewrite Hjm. intros H.
        apply assign_column_names in E1 as [_ [Hn1|[_ Hn1]]].
        { exfalso. unfold col_index in Hjm, Em. rewrite Hn1 in Hjm. congruence. }
        apply assign_column_names in H as [_ [Hn|[Hnone Hn]]].
        -- exists [MIN]. split; [congruence|].
           intros c [<-|[]]. split; [now left | assumption].
        -- exists [MIN; HR]. split.
           ++ rewrite Hn, Hn1, <- app_assoc. reflexivity.
           ++ intros c [<-|[<-|[]]]; (split; [auto|]); [assumption|].
              rewrite <- Hother1; [assumption | discriminate].
      * cbn [Exc.bind]. rewrite Em, Es. intros [= <-].
        exists []. rewrite app_nil_r. split; [reflexivity | intros ? []].
Qed.

(** X5.  [recompute_duration_fields] keeps every row and every column in
    place: the header it returns is the header it got, followed on the right
    by the minutes and the hours when they are new; with neither seconds nor
    minutes in the frame it returns the frame as it is. *)
Theorem recompute_appends (d d' : DataFrame) :
  recompute_duration_fields d = Some d' ->
  List.length (rows d') = List.length (rows d)
  /\ (exists extra,
        names d' = (names d ++ extra)%list
        /\ forall c, In c extra -> (c = MIN \/ c = HR) /\ col_index c d = None)
  /\ (col_index MIN d = None -> col_index SEC d = None -> d' = d).
Proof.
  intros H. pose proof (recompute_spec _ _ H) as (_ & _ & _ & Hsame & _).
  split; [|split; [now apply recompute_names | assumption]].
  revert H. unfold recompute_duration_fields.
  - destruct (col_index MIN d) as [jm|] eqn:Em.
    + cbn [Exc.bind]. rewrite Em. intros H. now apply assign_column_names in H.
    + destruct (col_index SEC d) as [js|] eqn:Es.
      * destruct (assign_column MIN (minutes_from_seconds js) d) as [d1|] eqn:E1;
          [|discriminate].
        cbn [Exc.bind].
        destruct (assign_column_spec _ _ _ _ E1) as (jm & Hjm & _).
        rewrite Hjm. intros H.
        apply assign_column_names in H as [-> _].
        now apply assign_column_names in E1.
      * cbn [Exc.bind]. rewrite Em, Es. now intros [= <-].
Qed.

End RecomputationMore.

(** ** drop_duplicates_by_key *)

Section DeduplicationMore.

Lemma same_value_refl a : same_value a a = true.
Proof.
  destruct a as [s| s| |s m e]; try reflexivity.
  - now destruct s.
  - unfold same_value, SpecFloat.SFeqb, SpecFloat.SFcompare.
    change (Pos.compare_cont Eq m m) with (Pos.compare m m).
    rewrite Z.compare_refl, Pos.compare_refl. now destruct s.
Qed.

(** Two values that compare equal are the same value, or two zeros. *)
Lemma same_value_eq a b :
  same_value a b = true ->
  a = b \/ exists s t, a = SpecFloat.S754_zero s /\ b = SpecFloat.S754_zero t.
Proof.
  destruct a as [s| s| |s m e], b as [t| t| |t n f]; cbn; try discriminate; eauto;
    try (destruct s; discriminate); try (destruct t; discriminate).
  - destruct s, t; try discriminate; auto.
  - unfold SpecFloat.SFeqb, SpecFloat.SFcompare.
    destruct s, t; try discriminate;
      destruct (Z.compare_spec e f) as [->| |]; try discriminate;
      change (Pos.compare_cont Eq m n) with (Pos.compare m n);
      destruct (Pos.compare_spec m n) as [->| |]; cbn; try discriminate; auto.
Qed.

Lemma same_value_trans a b c :
  same_value a b = true -> same_value b c = true -> same_value a c = true.
Proof.
  intros H1 H2.
  destruct (same_value_eq _ _ H1) as [->|(s & t & -> & ->)]; [assumption|].
  destruct (same_value_eq _ _ H2) as [<-|(s' & t' & _ & ->)]; reflexivity.
Qed.

Lemma float_same_refl x : float_same x x = true.
Proof. apply same_value_refl. Qed.

(** Missing equals missing. *)
Lemma float_same_nan x y : is_nan x = true -> is_nan y = true -> float_same x y = true.
Proof.
  intros Hx Hy. unfold float_same, FloatOps.Prim2SF. now rewrite Hx, Hy.
Qed.

Lemma float_same_trans x y z :
  float_same x y = true -> float_same y z = true -> float_same x z = true.
Proof. apply same_value_trans. Qed.

Lemma cell_eqb_refl a : cell_eqb a a = true.
Proof.
  destruct a as [q|b|s]; cbn [cell_eqb num_value];
    auto using float_same_refl, String.eqb_refl.
Qed.

Lemma cell_eqb_trans a b c :
  cell_eqb a b = true -> cell_eqb b c = true -> cell_eqb a c = true.
Proof.
  destruct a as [q1|b1|s1], b as [q2|b2|s2], c as [q3|b3|s3];
    cbn [cell_eqb num_value];
    try discriminate; try apply float_same_trans.
  intros H1 H2. apply String.eqb_eq in H1, H2. subst. apply String.eqb_refl.
Qed.

Lemma key_eqb_refl k : key_eqb k k = true.
Proof.
  induction k as [|a t IH]; simpl; [reflexivity|]. now rewrite cell_eqb_refl.
Qed.

Lemma key_eqb_trans k1 : forall k2 k3,
  key_eqb k1 k2 = true -> key_eqb k2 k3 = true -> key_eqb k1 k3 = true.
Proof.
  induction k1 as [|a t IH]; intros [|b t2] [|c t3]; simpl; try discriminate; auto.
  intros H1 H2. apply andb_true_iff in H1 as [Hab H1], H2 as [Hbc H2].
  apply andb_true_iff. split; [eapply cell_eqb_trans | eapply IH]; eauto.
Qed.

Variable proj : row -> list cell.

(** Rows whose projections differ pairwise, and from everything seen so
    far, are all kept. *)
Lemma duplicated_none l : forall seen,
  Forall (fun r => existsb (key_eqb (proj r)) seen = false) l ->
  ForallOrdPairs (fun a b => key_eqb (proj b) (proj a) = false) l ->
  kept proj seen l = l /\ count_true (duplicated_from seen (map proj l)) = 0.
Proof.
  unfold kept, count_true.
  induction l as [|a t IH]; intros seen Hseen Hpairs; [split; reflexivity|].
  inversion Hseen as [|? ? Ha Ht]; subst.
  inversion Hpairs as [|? ? Hat Hpt]; subst.
  cbn [map duplicated_from]. rewrite Ha. cbn [map negb select filter].
  destruct (IH (proj a :: seen)) as [Hk Hc]; [|assumption|].
  - rewrite Forall_forall in *. intros x Hx. simpl.
    rewrite (Hat x Hx), (Ht x Hx). reflexivity.
  - rewrite Hk. split; [reflexivity | exact Hc].
Qed.

(** Every row has, among the rows kept, one with the same projection, unless
    its projection was seen before. *)
Lemma kept_covers l : forall seen r,
  In r l ->
  existsb (key_eqb (proj r)) seen = true
  \/ exists r', In r' (kept proj seen l) /\ key_eqb (proj r) (proj r') = true.
Proof.
  unfold kept.
  induction l as [|a t IH]; intros seen r Hr; [destruct Hr|].
  cbn [map duplicated_from]. cbn [map negb select].
  destruct Hr as [<-|Hr].
  - destruct (existsb (key_eqb (proj a)) seen) eqn:E; [now left|].
    right. exists a. split; [now left | apply key_eqb_refl].
  - destruct (IH (proj a :: seen) r Hr) as [Hseen|[r' [Hr' Heq]]].
    + simpl in Hseen. apply orb_true_iff in Hseen as [Ha|Hs]; [|now left].
      destruct (existsb (key_eqb (proj a)) seen) eqn:E.
      * left. apply existsb_exists in E as [k [Hk Hak]].
        apply existsb_exists. exists k. split; [assumption|].
        eapply key_eqb_trans; eauto.
      * right. exists a. split; [now left | assumption].
    + right. exists r'. split; [|assumption].
      destruct (existsb (key_eqb (proj a)) seen); [assumption | now right].
Qed.

End DeduplicationMore.

Section DeduplicationExtras.

Lemma has_col_columns c d d' : columns d' = columns d -> has_col c d' = has_col c d.
Proof. intros H. unfold has_col. now rewrite (col_index_columns c d d' H). Qed.

Lemma key_columns_columns d d' : columns d' = columns d -> key_columns d' = key_columns d.
Proof.
  intros H. unfold key_columns. apply filter_ext. intros c.
  now apply has_col_columns.
Qed.

Lemma project_columns d d' key r :
  columns d' = columns d -> project d' key r = project d key r.
Proof.
  intros H. unfold project. apply map_ext. intros c.
  now rewrite (col_index_columns c d d' H).
Qed.

(** X6.  De-duplicating twice is de-duplicating once: on its own result
    [drop_duplicates_by_key] returns that very frame, reports no duplicate,
    and names the same key. *)
Theorem drop_duplicates_by_key_idempotent (df : DataFrame) :
  let '(out, dupes, key) := drop_duplicates_by_key df in
  drop_duplicates_by_key out = (out, 0, key).
Proof.
  unfold drop_duplicates_by_key.
  destruct (key_columns df) as [|c0 key0] eqn:Ekey.
  - now rewrite Ekey.
  - rewrite <- Ekey.
    assert (Hcols : columns (drop_duplicates df (key_columns df)) = columns df)
      by reflexivity.
    rewrite (key_columns_columns _ _ Hcols), Ekey. rewrite <- Ekey.
    destruct (kept_fresh (project df (key_columns df)) (rows df) [])
      as [Hseen Hpairs].
    destruct (duplicated_none (project df (key_columns df)) _ [] Hseen Hpairs)
      as [Hk Hc].
    assert (Hdup : duplicated (drop_duplicates df (key_columns df)) (key_columns df)
                   = duplicated_from []
                       (map (project df (key_columns df))
                            (kept (project df (key_columns df)) [] (rows df)))).
    { unfold duplicated.
      rewrite (map_ext (project (drop_duplicates df (key_columns df)) (key_columns df))
                       (project df (key_columns df)));
        [reflexivity|].
      intros r. now apply project_columns. }
    rewrite Hdup, Hc. f_equal. f_equal.
    unfold drop_duplicates at 1. rewrite Hdup.
    change (select (map negb (duplicated_from []
                      (map (project df (key_columns df))
                           (kept (project df (key_columns df)) [] (rows df)))))
                   (rows (drop_duplicates df (key_columns df))))
      with (kept (project df (key_columns df)) []
                 (kept (project df (key_columns df)) [] (rows df))).
    rewrite Hk. reflexivity.
Qed.

(** X7.  [drop_duplicates_by_key] loses no key: every row of the frame has,
    in the result, a row that agrees with it under all key columns (missing
    equal to missing); the result holds only rows of the frame; and the
    first row of the frame is always the first row of the result. *)
Theorem drop_duplicates_by_key_covers (df : DataFrame) :
  let '(out, dupes, key) := drop_duplicates_by_key df in
  (forall r, In r (rows df) ->
     exists r', In r' (rows out)
                /\ key_eqb (project df key r) (project df key r') = true)
  /\ (forall r, In r (rows out) -> In r (rows df))
  /\ (forall r t, rows df = r :: t -> exists t', rows out = r :: t').
Proof.
  unfold drop_duplicates_by_key.
  destruct (key_columns df) as [|c0 key0] eqn:Ekey.
  - split; [|split]; eauto.
  - rewrite <- Ekey. unfold drop_duplicates. cbn [rows].
    split; [|split].
    + intros r Hr.
      destruct (kept_covers (project df (key_columns df)) (rows df) [] r Hr)
        as [Hseen|Hex]; [discriminate | exact Hex].
    + intros r. apply select_In.
    + intros r t Ht. unfold duplicated. rewrite Ht. simpl. eauto.
Qed.

End DeduplicationExtras.

(** ** normalize_columns and coerce_types *)

(** X8.  Whatever the labels were, the labels [normalize_columns] returns
    are canonical: trimmed, without uppercase letter, space or hyphen. *)
Theorem normalize_columns_canonical (df : DataFrame) :
  forallb canonical (names (normalize_columns df)) = true.
Proof.
  unfold normalize_columns, names. cbn [columns].
  apply forallb_forall. intros c Hc.
  rewrite map_map in Hc. cbn [fst] in Hc.
  apply in_map_iff in Hc as [[c0 t] [<- _]].
  apply normalize_name_canonical.
Qed.

Section PipelineMore.

Variable parse_number : string -> option float.
Variable str_of_number : float -> string.

Local Abbreviation run := (main parse_number str_of_number).
Local Abbreviation coerce := (coerce_types parse_number str_of_number).
Local Abbreviation MIN := "trip_duration_min".
Local Abbreviation SEC := "trip_duration_sec".
Local Abbreviation HR := "trip_duration_hr".

(** X9.  [coerce_types] raises exactly when a label it reads -- a numeric
    label of the registry or [surge_applied] -- is carried by two columns of
    the frame; labels outside the registry may repeat. *)
Theorem coerce_types_raises (df : DataFrame) :
  coerce df = None <-> labels_unique COERCED df = false.
Proof.
  pose proof (coerce_types_defined parse_number str_of_number df) as H.
  split.
  - intros E. destruct (labels_unique COERCED df) eqn:U; [|reflexivity].
    destruct (proj1 H eq_refl) as [d Hd]. congruence.
  - intros U. destruct (coerce df) as [d|] eqn:E; [|reflexivity].
    assert (labels_unique COERCED df = true) by (apply H; eauto). congruence.
Qed.

(** X10.  What [coerce_types] returns can always be filtered: no text is
    left under a column a rule reads, so no comparison of [clean_rows]
    raises. *)
Theorem clean_rows_after_coerce_types (df dc : DataFrame) :
  coerce df = Some dc -> exists d0, clean_rows dc = Some d0.
Proof.
  intros H. apply clean_rows_total. eapply coerce_types_numeric_under; eauto.
Qed.

Lemma main_figures raw s :
  run raw = Some s ->
  n_in s = List.length (rows raw)
  /\ after_cleaning s = List.length (rows (silver s))
  /\ raw_cols s = names raw.
Proof.
  unfold main. destruct (staged _ _ raw) as [df|]; [|discriminate].
  cbn [Exc.bind]. destruct (drop_duplicates_by_key df) as [[out dupes] key].
  intros [= <-]. auto.
Qed.

Lemma drop_duplicates_by_key_count d out dupes key :
  drop_duplicates_by_key d = (out, dupes, key) ->
  List.length (rows out) + dupes = List.length (rows d).
Proof.
  unfold drop_duplicates_by_key. intros [= <- <- _].
  destruct (key_columns d) as [|c0 key0]; [lia|].
  unfold drop_duplicates. cbn [rows]. apply select_count.
  unfold duplicated. now rewrite duplicated_from_length, length_map.
Qed.

(** X11.  The figures of the summary add up: the rows written and the
    duplicates removed are together the rows that passed the filter, which
    are at most the rows read; no stage ever adds a row. *)
Theorem main_counts (raw : DataFrame) (s : Summary) :
  run raw = Some s ->
  n_in s = List.length (rows raw)
  /\ after_cleaning s = List.length (rows (silver s))
  /\ raw_cols s = names raw
  /\ exists dc d0,
       coerce (normalize_columns raw) = Some dc
       /\ clean_rows dc = Some d0
       /\ List.length (rows dc) = n_in s
       /\ after_cleaning s + dup_count s = List.length (rows d0)
       /\ List.length (rows d0) <= n_in s.
Proof.
  intros H. destruct (main_figures _ _ H) as (Hin & Hout & Hcols).
  repeat (split; [assumption|]).
  apply main_stages in H as (dc & d0 & d2 & Hc & H0 & H2 & H3).
  exists dc, d0. repeat (split; [assumption|]).
  pose proof (coerce_types_cells _ _ _ _ Hc) as [_ Hrows].
  apply Forall2_length in Hrows. cbn [normalize_columns rows] in Hrows.
  pose proof (clean_rows_spec _ _ H0) as [_ Hclean].
  pose proof (filter_length (row_ok dc) (rows dc)) as Hle.
  rewrite <- Hclean in Hle.
  pose proof (recompute_spec _ _ H2) as (_ & _ & _ & _ & Hrec).
  apply Forall2_length in Hrec.
  apply drop_duplicates_by_key_count in H3.
  rewrite Hin, Hout. split; [lia|]. split; lia.
Qed.

(** X12.  Every label of the pipeline's output is canonical: they are the
    normalized labels of the input, in their order, followed by the minutes
    and the hours when the recomputation adds them. *)
Theorem silver_labels (raw : DataFrame) (s : Summary) :
  run raw = Some s ->
  forallb canonical (names (silver s)) = true
  /\ exists extra,
       names (silver s) = (names (normalize_columns raw) ++ extra)%list
       /\ forall c, In c extra -> c = MIN \/ c = HR.
Proof.
  intros H. apply main_stages in H as (dc & d0 & d2 & Hc & H0 & H2 & H3).
  pose proof (coerce_types_cells _ _ _ _ Hc) as [Hn _].
  pose proof (clean_rows_spec _ _ H0) as [Hcols0 _].
  pose proof (recompute_names _ _ H2) as (extra & Hextra & Hin).
  pose proof (drop_duplicates_by_key_rows _ _ _ _ H3) as [Hcols _].
  assert (E : names (silver s) = (names (normalize_columns raw) ++ extra)%list).
  { unfold names at 1. rewrite Hcols. fold (names d2). rewrite Hextra.
    unfold names at 1. rewrite Hcols0. fold (names dc). now rewrite Hn. }
  split.
  - rewrite E. apply forallb_forall. intros c Hcin.
    apply in_app_or in Hcin as [Hcin|Hcin].
    + unfold normalize_columns, names in Hcin. cbn [columns] in Hcin.
      rewrite map_map in Hcin. cbn [fst] in Hcin.
      apply in_map_iff in Hcin as [[c0 t] [<- _]].
      apply normalize_name_canonical.
    + destruct (Hin c Hcin) as [[-> | ->] _]; reflexivity.
  - exists extra. split; [assumption|]. intros c Hcin. now destruct (Hin c Hcin).
Qed.

Lemma astype_bool_bool x : exists b, astype_bool x = Bool b.
Proof. destruct x; simpl; eauto. Qed.

(** X13.  In every row of the pipeline's output the cell under
    [surge_applied], when the column is present, is a boolean: never text,
    never a number, never missing. *)
Theorem silver_surge_boolean (raw : DataFrame) (s : Summary) (r : row) (j : nat) :
  run raw = Some s ->
  In r (rows (silver s)) ->
  col_index "surge_applied" (silver s) = Some j ->
  exists b, cell_at j r = Bool b.
Proof.
  intros H Hr Hj.
  apply silver_origin in H
    as (dc & d0 & d2 & Hc & _ & H2 & _ & Hcols0 & Hcols & Hrows).
  destruct (Hrows r Hr) as (r0 & Hr0 & _ & Hsame & _).
  pose proof (recompute_spec _ _ H2) as (Hother & _).
  rewrite (col_index_columns _ _ _ Hcols) in Hj.
  rewrite Hother in Hj by discriminate.
  rewrite (Hsame "surge_applied" j) by (discriminate || assumption).
  rewrite (col_index_columns _ _ _ Hcols0) in Hj.
  pose proof (coerce_types_cells _ _ _ _ Hc) as [Hn Hcells].
  destruct (Forall2_In_right _ _ _ _ Hcells Hr0) as (x & _ & Hx).
  rewrite (Hx j). unfold col_index in Hj. rewrite Hn in Hj.
  unfold coerced_cell.
  rewrite (targets_fresh _ _ NUM_COLS j surge_not_numeric Hj).
  rewrite (targets_In ["surge_applied"] _ _ j (or_introl eq_refl) Hj).
  destruct (dtype_at j (normalize_columns raw));
    auto using surge_text_bool, astype_bool_bool.
Qed.

(** X14.  In every row of the pipeline's output no text is left under a
    numeric column of the registry: each cell there is a number or the
    missing marker, the derived minutes and hours included. *)
Theorem silver_numeric (raw : DataFrame) (s : Summary) (r : row) (c : string) (j : nat) :
  run raw = Some s ->
  In r (rows (silver s)) ->
  In c NUM_COLS ->
  col_index c (silver s) = Some j ->
  is_numeric (cell_at j r) = true.
Proof.
  intros H Hr Hc Hj.
  assert (Hfrom : c <> MIN -> c <> HR -> is_numeric (cell_at j r) = true).
  { intros Hc1 Hc2.
    apply silver_origin in H
      as (dc & d0 & d2 & Hco & _ & H2 & _ & Hcols0 & Hcols & Hrows).
    destruct (Hrows r Hr) as (r0 & Hr0 & _ & Hsame & _).
    pose proof (recompute_spec _ _ H2) as (Hother & _).
    rewrite (col_index_columns _ _ _ Hcols) in Hj.
    rewrite (Hother c Hc1 Hc2) in Hj.
    rewrite (Hsame c j Hc1 Hc2 Hj).
    rewrite (col_index_columns _ _ _ Hcols0) in Hj.
    exact (coerce_types_numeric_under _ _ _ _ Hco r0 c j Hr0 Hc Hj). }
  destruct (String.eqb c MIN) eqn:E1.
  - apply String.eqb_eq in E1. subst c.
    destruct (silver_minutes_value _ _ _ _ _ _ H Hr Hj) as (q & Hq).
    destruct (cell_at j r); [reflexivity|reflexivity|discriminate].
  - apply String.eqb_neq in E1.
    destruct (String.eqb c HR) eqn:E2; [|apply String.eqb_neq in E2; auto].
    apply String.eqb_eq in E2. subst c.
    destruct (col_index MIN (silver s)) as [jm|] eqn:Em.
    + destruct (silver_hours _ _ _ _ _ _ H Hr Em) as (jh & qm & Hjh & _ & Hhr).
      assert (jh = j) by congruence. subst jh. now rewrite Hhr.
    + destruct (col_index SEC (silver s)) as [js|] eqn:Es.
      * destruct (silver_seconds_minutes _ _ _ _ _ H Es) as [jm Hjm]. congruence.
      * destruct (silver_untouched _ _ raw s r H Hr Es Em)
          as (dc & Hco & Hcols & Hin).
        rewrite (col_index_columns _ _ _ Hcols) in Hj.
        exact (coerce_types_numeric_under _ _ _ _ Hco r HR j Hin Hc Hj).
Qed.

End PipelineMore.

(** ** coerce_types, once more *)

Section CoercionTwice.

Variable parse_number : string -> option float.
Variable str_of_number : float -> string.

Local Abbreviation coerce := (coerce_types parse_number str_of_number).

Lemma set_cell_length_ge j v r : List.length r <= List.length (set_cell j v r).
Proof.
  revert r. induction j as [|j IH]; intros [|x t]; simpl; try lia.
  specialize (IH t). lia.
Qed.

Lemma map_column_fixed j t f d :
  j < List.length (columns d) ->
  dtype_at j d = t ->
  (forall r, In r (rows d) -> j < List.length r /\ f (cell_at j r) = cell_at j r) ->
  map_column j t f d = d.
Proof.
  intros Hj Ht Hrows. unfold map_column.
  rewrite set_dtype_same by assumption.
  rewrite (map_ext_in _ (fun r => r)).
  - rewrite map_id. now destruct d.
  - intros r Hr. destruct (Hrows r Hr) as [Hlt ->]. now apply set_cell_same.
Qed.

Lemma dtype_at_map_column_same j t f d :
  j < List.length (columns d) -> dtype_at j (map_column j t f d) = t.
Proof. intros H. unfold dtype_at, map_column. cbn [columns]. now apply dtype_set_dtype. Qed.

Lemma dtype_at_map_column_other j j' t f d :
  j <> j' -> dtype_at j' (map_column j t f d) = dtype_at j' d.
Proof.
  intros H. unfold dtype_at, map_column. cbn [columns].
  now rewrite nth_set_dtype_other.
Qed.

Lemma to_numeric_cell_fixed t x :
  to_numeric_cell parse_number (to_numeric_dtype t) (to_numeric_cell parse_number t x)
  = to_numeric_cell parse_number t x.
Proof.
  destruct x as [q|b|s]; simpl; auto.
  - now destruct t.
  - now destruct (parse_number s).
Qed.

Lemma to_numeric_dtype_fixed t : to_numeric_dtype (to_numeric_dtype t) = to_numeric_dtype t.
Proof. now destruct t. Qed.

Lemma foldM_fixed {A S} (f : A -> S -> option S) l s :
  (forall a, In a l -> f a s = Some s) -> Exc.foldM f l s = Some s.
Proof.
  induction l as [|a t IH]; intros H; cbn [Exc.foldM]; [reflexivity|].
  rewrite (H a (or_introl eq_refl)). cbn [Exc.bind]. apply IH.
  intros; apply H; now right.
Qed.

Lemma coerce_numeric_step_shape df c done d d' :
  ~ In c done ->
  coerced_so_far parse_number df done d ->
  shaped df done d ->
  coerce_numeric parse_number c d = Some d' ->
  shaped df (c :: done) d'.
Proof.
  intros Hc (Hn & Ht & _) Hshape. unfold coerce_numeric, has_col.
  assert (Hidx : col_index c d = col_index c df)
    by (unfold col_index; now rewrite Hn).
  rewrite Hidx.
  destruct (col_index c df) as [j|] eqn:Ej.
  - destruct (series_index c d) as [j0|] eqn:Es; [|discriminate].
    apply series_index_Some in Es. rewrite Hidx in Es.
    assert (j0 = j) by congruence. subst j0.
    cbn [Exc.bind]. intros [= <-].
    pose proof (targets_fresh df c done j Hc Ej) as Hfresh.
    pose proof (index_of_lt _ _ _ Ej) as Hlt. rewrite <- Hn in Hlt.
    unfold names in Hlt. rewrite length_map in Hlt.
    intros c0 j0 [<-|Hin] Hj0.
    + assert (j0 = j) by congruence. subst j0. split.
      * rewrite dtype_at_map_column_same by assumption. now rewrite (Ht j Hfresh).
      * unfold map_column. cbn [rows]. intros r Hr.
        apply in_map_iff in Hr as [r0 [<- _]]. apply set_cell_length.
    + assert (Hne : j <> j0).
      { intros <-. apply Hc. now rewrite (index_of_inj _ _ _ _ Ej Hj0). }
      destruct (Hshape c0 j0 Hin Hj0) as [Hdt Hlen]. split.
      * now rewrite dtype_at_map_column_other.
      * unfold map_column. cbn [rows]. intros r Hr.
        apply in_map_iff in Hr as [r0 [<- Hr0]].
        pose proof (set_cell_length_ge j
                      (to_numeric_cell parse_number (dtype_at j d) (cell_at j r0)) r0).
        specialize (Hlen r0 Hr0). lia.
  - intros [= <-]. intros c0 j0 [<-|Hin] Hj0; [congruence|].
    exact (Hshape c0 j0 Hin Hj0).
Qed.

Lemma coerce_numeric_loop_shape df todo : forall done d d',
  NoDup todo ->
  (forall c, In c todo -> ~ In c done) ->
  coerced_so_far parse_number df done d ->
  shaped df done d ->
  Exc.foldM (coerce_numeric parse_number) todo d = Some d' ->
  shaped df (rev todo ++ done) d'.
Proof.
  induction todo as [|c todo IH]; cbn [Exc.foldM rev app];
    intros done d d' Hnd Hfresh Hinv Hshape H.
  - now inversion H; subst.
  - destruct (coerce_numeric parse_number c d) as [d1|] eqn:E; [|discriminate].
    cbn [Exc.bind] in H. inversion Hnd; subst.
    rewrite <- app_assoc. cbn [app].
    apply (IH (c :: done) d1 d'); auto.
    + intros c0 Hin [Heq|Hin']; [subst; contradiction|].
      apply (Hfresh c0); [now right | assumption].
    + eapply coerce_numeric_step; eauto. apply Hfresh. now left.
    + eapply coerce_numeric_step_shape; eauto. apply Hfresh. now left.
Qed.

(** After the loop over [NUM_COLS]: dtypes, row lengths and cells under the
    numeric labels. *)
Lemma coerce_loop_result df d1 :
  Exc.foldM (coerce_numeric parse_number) NUM_COLS df = Some d1 ->
  names d1 = names df
  /\ shaped df NUM_COLS d1
  /\ (forall j, targets NUM_COLS df j = false -> dtype_at j d1 = dtype_at j df)
  /\ Forall2 (fun r r' => forall j,
                cell_at j r' =
                  if targets NUM_COLS df j
                  then to_numeric_cell parse_number (dtype_at j df) (cell_at j r)
                  else cell_at j r)
             (rows df) (rows d1).
Proof.
  intros E.
  pose proof (coerce_numeric_loop parse_number df NUM_COLS [] df d1 NUM_COLS_NoDup
                ltac:(intros ? ? []) (coerced_so_far_start parse_number df) E)
    as (Hn & Ht & Hr).
  pose proof (coerce_numeric_loop_shape df NUM_COLS [] df d1 NUM_COLS_NoDup
                ltac:(intros ? ? []) (coerced_so_far_start parse_number df)
                ltac:(intros ? ? []) E) as Hshape.
  split; [assumption|]. split; [|split].
  - intros c j Hin Hj. apply (Hshape c j); [|assumption].
    rewrite app_nil_r. now apply -> in_rev.
  - intros j Hj. apply Ht. now rewrite targets_rev.
  - eapply Forall2_impl; [|exact Hr]. intros r r' Hrr j.
    now rewrite (Hrr j), targets_rev.
Qed.

Lemma series_index_unique c d j :
  label_ok c d = true -> col_index c d = Some j -> series_index c d = Some j.
Proof.
  unfold label_ok, series_index, has_col. intros H Hj. rewrite Hj in *.
  simpl in H. now rewrite H.
Qed.

Lemma labels_unique_In cs d c : labels_unique cs d = true -> In c cs -> label_ok c d = true.
Proof.
  unfold labels_unique. rewrite forallb_forall. auto.
Qed.

(** What the first pass leaves is a fixed point of each step of the
    second. *)
Lemma coerce_numeric_fixed c d j t :
  col_index c d = Some j ->
  label_ok c d = true ->
  dtype_at j d = to_numeric_dtype t ->
  (forall r, In r (rows d) ->
     j < List.length r
     /\ exists x, cell_at j r = to_numeric_cell parse_number t x) ->
  coerce_numeric parse_number c d = Some d.
Proof.
  intros Hj Hok Hdt Hrows. unfold coerce_numeric, has_col. rewrite Hj.
  rewrite (series_index_unique c d j Hok Hj). cbn [Exc.bind].
  rewrite map_column_fixed; [reflexivity| | |].
  - apply index_of_lt in Hj. unfold names in Hj. now rewrite length_map in Hj.
  - rewrite Hdt. now rewrite to_numeric_dtype_fixed.
  - intros r Hr. destruct (Hrows r Hr) as [Hlt [x Hx]]. split; [assumption|].
    rewrite Hdt, Hx. apply to_numeric_cell_fixed.
Qed.

Lemma coerce_surge_fixed d j :
  col_index "surge_applied" d = Some j ->
  label_ok "surge_applied" d = true ->
  dtype_at j d = DBool ->
  (forall r, In r (rows d) -> j < List.length r /\ exists b, cell_at j r = Bool b) ->
  coerce_surge str_of_number d = Some d.
Proof.
  intros Hj Hok Hdt Hrows. unfold coerce_surge, has_col. rewrite Hj.
  rewrite (series_index_unique _ d j Hok Hj). cbn [Exc.bind]. rewrite Hdt.
  rewrite map_column_fixed; [reflexivity| |assumption|].
  - apply index_of_lt in Hj. unfold names in Hj. now rewrite length_map in Hj.
  - intros r Hr. destruct (Hrows r Hr) as [Hlt [b Hb]]. split; [assumption|].
    now rewrite Hb.
Qed.

(** X16.  Coercing twice is coercing once: on its own result [coerce_types]
    returns that very frame.  Numbers, missing markers and booleans are
    left as they are, and the columns keep the dtype the first pass gave
    them. *)
Theorem coerce_types_idempotent (df d : DataFrame) :
  coerce df = Some d -> coerce d = Some d.
Proof.
  intros H.
  assert (Hu : labels_unique COERCED df = true)
    by (apply (coerce_types_defined parse_number str_of_number); eauto).
  destruct (coerce_types_cells _ _ _ _ H) as [Hn Hcells].
  assert (Hok : forall c, In c COERCED -> label_ok c d = true).
  { intros c Hc. rewrite (label_ok_names c df d Hn).
    now apply (labels_unique_In COERCED). }
  assert (Hidx : forall c, col_index c d = col_index c df)
    by (intros c; unfold col_index; now rewrite Hn).
  (* dtypes and row lengths after the first pass *)
  assert (Hshape : shaped df NUM_COLS d
                   /\ forall js, col_index "surge_applied" df = Some js ->
                        dtype_at js d = DBool
                        /\ forall r, In r (rows d) -> js < List.length r).
  { revert H. unfold coerce_types.
    destruct (Exc.foldM _ NUM_COLS df) as [d1|] eqn:E; [|discriminate].
    cbn [Exc.bind].
    destruct (coerce_loop_result df d1 E) as (Hn1 & Hshape1 & _ & _).
    unfold coerce_surge, has_col.
    assert (Hidx1 : col_index "surge_applied" d1 = col_index "surge_applied" df)
      by (unfold col_index; now rewrite Hn1).
    rewrite Hidx1.
    destruct (col_index "surge_applied" df) as [js|] eqn:Es.
    - destruct (series_index _ d1) as [j0|] eqn:Ej0; [|discriminate].
      apply series_index_Some in Ej0. rewrite Hidx1 in Ej0.
      assert (j0 = js) by congruence. subst j0. cbn [Exc.bind].
      pose proof (index_of_lt _ _ _ Es) as Hlt. rewrite <- Hn1 in Hlt.
      unfold names in Hlt. rewrite length_map in Hlt.
      intros Hd.
      assert (exists g, d = map_column js DBool g d1) as [g ->]
        by (destruct (dtype_at js d1); injection Hd as <-; eauto).
      split.
      + intros c j Hc Hj. destruct (Hshape1 c j Hc Hj) as [Hdt Hlen].
        assert (Hne : js <> j).
        { intros <-. apply surge_not_numeric.
          now rewrite (index_of_inj _ _ _ _ Es Hj). }
        split; [now rewrite dtype_at_map_column_other|].
        unfold map_column. cbn [rows]. intros r Hr.
        apply in_map_iff in Hr as [r0 [<- Hr0]].
        pose proof (set_cell_length_ge js (g (cell_at js r0)) r0).
        specialize (Hlen r0 Hr0). lia.
      + intros js' [= <-]. split; [now apply dtype_at_map_column_same|].
        unfold map_column. cbn [rows]. intros r Hr.
        apply in_map_iff in Hr as [r0 [<- _]]. apply set_cell_length.
    - intros [= <-]. split; [assumption | discriminate]. }
  destruct Hshape as [Hnum Hsurge].
  unfold coerce_types. rewrite foldM_fixed.
  - cbn [Exc.bind].
    destruct (col_index "surge_applied" d) as [js|] eqn:Es.
    + pose proof Es as Es'. rewrite Hidx in Es'.
      destruct (Hsurge js Es') as [Hdt Hlen].
      apply (coerce_surge_fixed d js Es); [|assumption|].
      * apply Hok. unfold COERCED. apply in_or_app. right. now left.
      * intros r Hr. split; [now apply Hlen|].
        destruct (Forall2_In_right _ _ _ _ Hcells Hr) as (x & _ & Hx).
        rewrite (Hx js). unfold coerced_cell.
        rewrite (targets_fresh _ _ NUM_COLS js surge_not_numeric Es').
        rewrite (targets_In ["surge_applied"] _ _ js (or_introl eq_refl) Es').
        destruct (dtype_at js df);
          first [apply astype_bool_bool | apply surge_text_bool].
    + unfold coerce_surge, has_col. now rewrite Es.
  - intros c Hc. destruct (col_index c d) as [j|] eqn:Ej.
    + pose proof Ej as Ej'. rewrite Hidx in Ej'.
      destruct (Hnum c j Hc Ej') as [Hdt Hlen].
      apply (coerce_numeric_fixed c d j (dtype_at j df) Ej); [|assumption|].
      * apply Hok. unfold COERCED. apply in_or_app. now left.
      * intros r Hr. split; [now apply Hlen|].
        destruct (Forall2_In_right _ _ _ _ Hcells Hr) as (x & _ & Hx).
        exists (cell_at j x). rewrite (Hx j). unfold coerced_cell.
        now rewrite (targets_In NUM_COLS _ c j Hc Ej').
    + unfold coerce_numeric, has_col. now rewrite Ej.
Qed.

End CoercionTwice.

(** ** Columns outside the registry *)

Section Passthrough.

Variable parse_number : string -> option float.
Variable str_of_number : float -> string.

Local Abbreviation run := (main parse_number str_of_number).

Lemma registry_durations c :
  ~ In c COERCED -> c <> "trip_duration_min" /\ c <> "trip_duration_hr".
Proof.
  intros H. split; intros ->; apply H; apply In_by_eqb; reflexivity.
Qed.

(** X15.  A column whose normalized label is outside the registry goes
    through the pipeline untouched: it keeps its position, and every row of
    the output is a row of the input as far as these columns go, whatever
    they hold. *)
Theorem silver_passthrough (raw : DataFrame) (s : Summary) (r' : row) :
  run raw = Some s ->
  In r' (rows (silver s)) ->
  exists r, In r (rows raw)
            /\ forall c j, ~ In c COERCED ->
                 col_index c (normalize_columns raw) = Some j ->
                 col_index c (silver s) = Some j
                 /\ cell_at j r' = cell_at j r.
Proof.
  intros H Hr'.
  apply silver_origin in H
    as (dc & d0 & d2 & Hc & _ & H2 & Hn & Hcols0 & Hcols & Hrows).
  destruct (Hrows r' Hr') as (r0 & Hr0 & _ & Hsame & _).
  pose proof (recompute_spec _ _ H2) as (Hother & _).
  pose proof (coerce_types_cells _ _ _ _ Hc) as [_ Hcells].
  destruct (Forall2_In_right _ _ _ _ Hcells Hr0) as (r & Hr & Hx).
  exists r. split; [exact Hr|].
  intros c j Hout Hj.
  destruct (registry_durations c Hout) as [Hc1 Hc2].
  assert (Hj0 : col_index c d0 = Some j).
  { rewrite (col_index_columns _ _ _ Hcols0). unfold col_index in *.
    now rewrite Hn. }
  split.
  - now rewrite (col_index_columns _ _ _ Hcols), (Hother c Hc1 Hc2).
  - rewrite (Hsame c j Hc1 Hc2 Hj0), (Hx j). unfold coerced_cell.
    pose proof (targets_fresh _ c COERCED j Hout Hj) as Hfresh.
    unfold COERCED in Hfresh. rewrite targets_app in Hfresh.
    apply orb_false_iff in Hfresh as [-> ->]. reflexivity.
Qed.

End Passthrough.

(** ** The samples, once more *)

Lemma clean_rows_keeps_order_witness :
  clean_rows sample_coerced = Some sample_cleaned
  /\ rows sample_cleaned = filter (row_ok sample_coerced) (rows sample_coerced).
Proof.
  assert (H : clean_rows sample_coerced = Some sample_cleaned)
    by (vm_compute; reflexivity).
  split; [exact H|].
  exact (proj1 (proj2 (clean_rows_keeps_order sample_coerced sample_cleaned H))).
Defined.

Lemma clean_rows_idempotent_witness :
  clean_rows sample_coerced = Some sample_cleaned
  /\ clean_rows sample_cleaned = Some sample_cleaned.
Proof.
  assert (H : clean_rows sample_coerced = Some sample_cleaned)
    by (vm_compute; reflexivity).
  split; [exact H|].
  exact (clean_rows_idempotent sample_coerced sample_cleaned H).
Defined.


Lemma recompute_idempotent_witness :
  recompute_duration_fields sample_cleaned = Some sample_staged
  /\ recompute_duration_fields sample_staged = Some sample_staged.
Proof.
  assert (H : recompute_duration_fields sample_cleaned = Some sample_staged)
    by (vm_compute; reflexivity).
  split; [exact H|].
  exact (recompute_idempotent sample_cleaned sample_staged H).
Defined.

Lemma recompute_appends_witness :
  recompute_duration_fields sample_cleaned = Some sample_staged
  /\ List.length (rows sample_staged) = List.length (rows sample_cleaned)
  /\ exists extra, names sample_staged = (names sample_cleaned ++ extra)%list.
Proof.
  assert (H : recompute_duration_fields sample_cleaned = Some sample_staged)
    by (vm_compute; reflexivity).
  split; [exact H|].
  destruct (recompute_appends sample_cleaned sample_staged H)
    as (Hlen & (extra & Hextra & _) & _).
  split; [exact Hlen|]. exists extra. exact Hextra.
Defined.

Lemma drop_duplicates_by_key_covers_witness :
  In sample_trip (rows sample_staged)
  /\ let '(out, dupes, key) := drop_duplicates_by_key sample_staged in
     exists r', In r' (rows out)
                /\ key_eqb (project sample_staged key sample_trip)
                           (project sample_staged key r') = true.
Proof.
  assert (Hin : In sample_trip (rows sample_staged)) by (left; reflexivity).
  split; [exact Hin|].
  pose proof (drop_duplicates_by_key_covers sample_staged) as H.
  destruct (drop_duplicates_by_key sample_staged) as [[out dupes] key].
  destruct H as (Hcover & _). exact (Hcover sample_trip Hin).
Defined.

Local Abbreviation run_again := (main read_integer no_number_text).
Local Abbreviation coerce_again := (coerce_types read_integer no_number_text).

Lemma coerce_types_raises_witness :
  labels_unique COERCED (mkDF [("tip", DNumeric); ("tip", DObject)] [[Num 1; Str "2"]])
  = false
  /\ coerce_again (mkDF [("tip", DNumeric); ("tip", DObject)] [[Num 1; Str "2"]]) = None.
Proof.
  assert (H : labels_unique COERCED
                (mkDF [("tip", DNumeric); ("tip", DObject)] [[Num 1; Str "2"]]) = false)
    by reflexivity.
  split; [exact H|].
  exact (proj2 (coerce_types_raises read_integer no_number_text _) H).
Defined.

Lemma clean_rows_after_coerce_types_witness :
  coerce_again (normalize_columns sample_raw) = Some sample_coerced
  /\ exists d0, clean_rows sample_coerced = Some d0.
Proof.
  assert (H : coerce_again (normalize_columns sample_raw) = Some sample_coerced)
    by (vm_compute; reflexivity).
  split; [exact H|].
  exact (clean_rows_after_coerce_types read_integer no_number_text _ _ H).
Defined.

Lemma coerce_types_idempotent_witness :
  coerce_again (normalize_columns sample_raw) = Some sample_coerced
  /\ coerce_again sample_coerced = Some sample_coerced.
Proof.
  assert (H : coerce_again (normalize_columns sample_raw) = Some sample_coerced)
    by (vm_compute; reflexivity).
  split; [exact H|].
  exact (coerce_types_idempotent read_integer no_number_text _ _ H).
Defined.

Lemma main_counts_witness :
  run_again sample_raw = Some sample_summary
  /\ n_in sample_summary = List.length (rows sample_raw)
  /\ after_cleaning sample_summary = List.length (rows (silver sample_summary)).
Proof.
  assert (H : run_again sample_raw = Some sample_summary)
    by (vm_compute; reflexivity).
  split; [exact H|].
  destruct (main_counts read_integer no_number_text sample_raw sample_summary H)
    as (Hin & Hout & _).
  split; assumption.
Defined.

Lemma silver_labels_witness :
  run_again sample_raw = Some sample_summary
  /\ forallb canonical (names (silver sample_summary)) = true.
Proof.
  assert (H : run_again sample_raw = Some sample_summary)
    by (vm_compute; reflexivity).
  split; [exact H|].
  exact (proj1 (silver_labels read_integer no_number_text sample_raw sample_summary H)).
Defined.

Lemma silver_surge_boolean_witness :
  run_again sample_raw = Some sample_summary
  /\ In sample_trip (rows (silver sample_summary))
  /\ col_index "surge_applied" (silver sample_summary) = Some 6
  /\ exists b, cell_at 6 sample_trip = Bool b.
Proof.
  assert (H : run_again sample_raw = Some sample_summary)
    by (vm_compute; reflexivity).
  assert (Hr : In sample_trip (rows (silver sample_summary)))
    by (left; reflexivity).
  split; [exact H|]. split; [exact Hr|]. split; [reflexivity|].
  exact (silver_surge_boolean read_integer no_number_text
           sample_raw sample_summary sample_trip 6 H Hr eq_refl).
Defined.

Lemma silver_numeric_witness :
  run_again sample_raw = Some sample_summary
  /\ In sample_trip (rows (silver sample_summary))
  /\ In "total_fare_new" NUM_COLS
  /\ col_index "total_fare_new" (silver sample_summary) = Some 2
  /\ is_numeric (cell_at 2 sample_trip) = true.
Proof.
  assert (H : run_again sample_raw = Some sample_summary)
    by (vm_compute; reflexivity).
  assert (Hr : In sample_trip (rows (silver sample_summary)))
    by (left; reflexivity).
  assert (Hc : In "total_fare_new" NUM_COLS) by (apply In_by_eqb; reflexivity).
  split; [exact H|]. split; [exact Hr|]. split; [exact Hc|]. split; [reflexivity|].
  exact (silver_numeric read_integer no_number_text
           sample_raw sample_summary sample_trip "total_fare_new" 2 H Hr Hc eq_refl).
Defined.

Lemma silver_passthrough_witness :
  run_again sample_raw = Some sample_summary
  /\ In sample_trip (rows (silver sample_summary))
  /\ exists r, In r (rows sample_raw)
               /\ (~ In "driver" COERCED ->
                   col_index "driver" (normalize_columns sample_raw) = Some 7 ->
                   col_index "driver" (silver sample_summary) = Some 7
                   /\ cell_at 7 sample_trip = cell_at 7 r).
Proof.
  assert (H : run_again sample_raw = Some sample_summary)
    by (vm_compute; reflexivity).
  assert (Hr : In sample_trip (rows (silver sample_summary)))
    by (left; reflexivity).
  split; [exact H|]. split; [exact Hr|].
  destruct (silver_passthrough read_integer no_number_text
              sample_raw sample_summary sample_trip H Hr) as (r & Hin & Hcells).
  exists r. split; [exact Hin|]. exact (Hcells "driver" 7).
Defined.

Lemma main_defined_witness :
  labels_unique COERCED (normalize_columns sample_raw) = true
  /\ exists s, run_again sample_raw = Some s.
Proof.
  split; [reflexivity|].
  exact (proj1 (main_defined read_integer no_number_text sample_raw) eq_refl).
Defined.

(** An empty table goes through: the header is normalized, the minutes and
    the hours are added, and no row is written. *)
Example main_empty_table :
  option_map (fun s => (names (silver s), rows (silver s), n_in s, dup_count s))
             (run_again (mkDF [("Trip Duration Sec", DObject); ("note", DObject)] []))
  = Some (["trip_duration_sec"; "note"; "trip_duration_min"; "trip_duration_hr"],
          [], 0, 0).
Proof. reflexivity. Qed.
